(** * smile: quote-request backend (api/src/auth.js, api/src/server.js)

    A shallow embedding of the admin authorization boundary and of the
    request handlers of the quote-intake API, with the storage tables of
    the SQL schema as finite maps keyed by their primary key.

    Strings are sequences of code units below 256; timestamps are integers
    (microseconds of the clock that produced them, milliseconds once they
    are Dates in a JSON document); a Number that holds an integer is that
    integer, rounded as a double is. *)

From stdpp Require Import gmap strings list fin_maps sorting.
From Stdlib Require Import ZArith Ascii.

Open Scope Z_scope.

(** ** JavaScript values and string primitives *)

Module JS.

(** A value found in a parsed query string or request body.  Only strings
    are inspected by the handlers; any other value (number, boolean,
    null, array, object) is characterised by its truthiness and by what
    [toString()] renders it to. *)
Inductive value :=
  | Str (s : string)
  | Other (truthy : bool) (repr : string).

(** A property of [req.query] or [req.body]; [None] is [undefined]. *)
Definition prop := option value.

Definition is_string (v : prop) : option string :=
  match v with Some (Str s) => Some s | _ => None end.

(** [(v ?? '').toString()] *)
Definition nullish_toString (v : prop) : string :=
  match v with
  | None => ""
  | Some (Str s) => s
  | Some (Other _ r) => r
  end.

(** [(v || '').toString()] *)
Definition or_empty_toString (v : prop) : string :=
  match v with
  | None => ""
  | Some (Str s) => s
  | Some (Other true r) => r
  | Some (Other false _) => ""
  end.

(** [String(v)], the coercion [parseInt] applies to its argument. *)
Definition ToString (v : prop) : string :=
  match v with
  | None => "undefined"
  | Some (Str s) => s
  | Some (Other _ r) => r
  end.

Definition code (c : ascii) : N := N_of_ascii c.

(** WhiteSpace and LineTerminator code units below 256:
    TAB, LF, VT, FF, CR, SP, NBSP. *)
Definition is_ws (c : ascii) : bool :=
  let n := code c in
  ((9 <=? n) && (n <=? 13) || (n =? 32) || (n =? 160))%N.

(** The characters the regular-expression atom [.] refuses. *)
Definition is_line_terminator (c : ascii) : bool :=
  let n := code c in ((n =? 10) || (n =? 13))%N.

Definition is_upper (c : ascii) : bool :=
  let n := code c in
  ((65 <=? n) && (n <=? 90)
   || (192 <=? n) && (n <=? 222) && negb (n =? 215))%N.

Definition lower_char (c : ascii) : ascii :=
  if is_upper c then ascii_of_N (code c + 32) else c.

Fixpoint toLowerCase (s : string) : string :=
  match s with
  | EmptyString => EmptyString
  | String c r => String (lower_char c) (toLowerCase r)
  end.

Fixpoint trimStart (s : string) : string :=
  match s with
  | String c r => if is_ws c then trimStart r else s
  | EmptyString => EmptyString
  end.

Fixpoint trimEnd (s : string) : string :=
  match s with
  | EmptyString => EmptyString
  | String c r =>
      match trimEnd r with
      | EmptyString => if is_ws c then EmptyString else String c EmptyString
      | r' => String c r'
      end
  end.

Definition trim (s : string) : string := trimEnd (trimStart s).

Definition digit (c : ascii) : option Z :=
  let n := code c in
  if ((48 <=? n) && (n <=? 57))%N then Some (Z.of_N n - 48) else None.

(** The longest prefix of decimal digits, as the integer it denotes;
    [None] when there is no digit. *)
Fixpoint digits (acc : option Z) (s : string) : option Z :=
  match s with
  | EmptyString => acc
  | String c r =>
      match digit c with
      | Some d => digits (Some (10 * default 0 acc + d)) r
      | None => acc
      end
  end.

(** What a Number holds of an integer: the nearest double, ties to even.
    Up to 2^53 every integer is a double; from there on the doubles are
    2^(e-52) apart for an integer of e+1 bits.  An integer beyond the
    largest finite double becomes [Infinity], which is kept here as 2^1024
    (with its sign), the first integer no finite double reaches. *)
Definition to_double (n : Z) : Z :=
  let a := Z.abs n in
  if a <? 2 ^ 53 then n
  else
    let sh := Z.log2 a - 52 in
    let q := a / 2 ^ sh in
    let r := a mod 2 ^ sh in
    let half := 2 ^ (sh - 1) in
    let q := if (half <? r) || ((r =? half) && Z.odd q) then q + 1 else q in
    Z.sgn n * Z.min (q * 2 ^ sh) (2 ^ 1024).

(** The search for the shortest decimal that is read back as the double
    [a]: at each scale, from the coarsest on, the two multiples of [unit]
    next to [a] are tried; of two that are read back as [a] the nearer one
    is taken, and of two equally near the one with the even count of
    units. *)
Fixpoint shortest (fuel : nat) (a unit : Z) : Z :=
  let lo := a / unit * unit in
  let hi := lo + unit in
  let oklo := to_double lo =? a in
  let okhi := to_double hi =? a in
  if oklo && okhi then
    if a - lo <? hi - a then lo
    else if hi - a <? a - lo then hi
    else if Z.even (lo / unit) then lo else hi
  else if oklo then lo
  else if okhi then hi
  else match fuel with O => a | S fuel' => shortest fuel' a (unit / 10) end.

(** [String(n)] for a Number that holds an integer, as the integer its
    digits spell.  Below 2^53 these are the digits of the integer; beyond,
    they are the fewest digits that are read back as the same Number,
    followed by zeros.  From 10^21 on the text is in exponent notation (or
    is [Infinity]) and spells no integer: the Number is then kept as it
    is, and it is no [bigint] either way. *)
Definition spelled (n : Z) : Z :=
  let a := Z.abs n in
  if (a <? 2 ^ 53) || (10 ^ 21 <=? a) then n
  else Z.sgn n * shortest 21 a (10 ^ 21).

(** The integer that the text of a value starts with, after white space
    and with its sign; [None] when no digit comes first. *)
Definition integer_prefix (v : prop) : option Z :=
  match trimStart (ToString v) with
  | String "-" r => Z.opp <$> digits None r
  | String "+" r => digits None r
  | s => digits None s
  end.

(** [parseInt(v, 10)]: [None] is NaN, otherwise the Number that holds the
    integer the value starts with. *)
Definition parseInt (v : prop) : option Z := to_double <$> integer_prefix v.

(** The Date that the database driver makes of a [timestamptz]: a Date
    counts milliseconds, and the microseconds beyond them are dropped. *)
Definition to_Date (micros : Z) : Z := micros / 1000.

(** [n || d] on a number: NaN and zero are falsy. *)
Definition num_or (n : option Z) (d : Z) : Z :=
  match n with
  | Some k => if decide (k = 0) then d else k
  | None => d
  end.

(** [s.startsWith(p)], returning what follows the prefix. *)
Fixpoint strip_prefix (p s : string) : option string :=
  match p, s with
  | EmptyString, _ => Some s
  | String a p', String b s' =>
      if decide (a = b) then strip_prefix p' s' else None
  | String _ _, EmptyString => None
  end.

Fixpoint forallb_string (f : ascii → bool) (s : string) : bool :=
  match s with
  | EmptyString => true
  | String c r => f c && forallb_string f r
  end.

End JS.

(** ** External libraries

    [jsonwebtoken], [zod]'s e-mail format, [mime-types], [res.type] of
    Express and the built-in [encodeURIComponent] are not part of the
    repository; the development is parametric in them. *)

Record jwt_payload := JwtPayload {
  jwt_sub : option string;
  jwt_role : option string;
  jwt_email : option string;
}.

Class Libs := {
  (** [jwt.sign(payload, secret, { expiresIn })] at a given time (seconds) *)
  jwt_sign : jwt_payload → string → Z → Z → string;
  (** [jwt.verify(token, secret)] at a given time; [None] when it throws *)
  jwt_verify : string → string → Z → option jwt_payload;
  (** [z.string().email()] *)
  zod_email : string → bool;
  (** [mime.lookup(name)]; [None] is [false] *)
  mime_lookup : string → option string;
  encodeURIComponent : string → string;
  (** the Content-Type header that [res.type(t)] of Express sets: a value
      without a slash is looked up as a file extension, and a text type
      gets its charset parameter ([text/plain; charset=utf-8]) *)
  res_type : string → string;
  (** a signed token is never the empty string *)
  jwt_sign_nonempty : ∀ p k t d, jwt_sign p k t d ≠ "";
}.

(** ** HTTP requests and responses *)

(** A row of the list view *)
Record summary := Summary {
  sm_id : Z;
  sm_name : string;
  sm_treatment : option string;
  sm_status : string;
  sm_created_at : Z;
  sm_snippet : string;
}.

(** What the handler sends: the JSON document, a plain text, or a stream.
    A timestamp in a document is a Date, counted in milliseconds. *)
Inductive content :=
  | BError (error : string)
  | BText (message : string)
  | BToken (token : string)
  | BId (id : Z)
  | BRows (rows : list summary)
  | BUpdated (id : Z) (status : string) (updated_at : Z)
  | BStream (content_type disposition path : string).

Record response := Response { res_status : Z; res_body : content }.

(** [res.json(x)] without a preceding [res.status] *)
Definition json (b : content) : response := Response 200 b.

(** [process.env], as both modules read it when they are loaded. *)
Record env := Env {
  env_ADMIN_EMAIL : option string;
  env_ADMIN_PASSWORD : option string;
  env_JWT_SECRET : option string;
  env_UPLOAD_DIR : option string;
}.

(** [x || d] on an optional string, as in [process.env.X || d] *)
Definition or_default (v : option string) (d : string) : string :=
  match v with
  | Some s => if decide (s = "") then d else s
  | None => d
  end.

(** A file part of a multipart submission.  [stored_as] is the name the
    disk storage engine draws for it ([randomUUID()] followed by the
    lower-cased extension of the original name). *)
Record upload_part := UploadPart {
  part_fieldname : string;
  part_originalname : string;
  part_mimetype : string;
  part_size : Z;
  stored_as : string;
}.

(** An incoming request, as the routes see it once the body parsers and
    the query parser have run.  [params_id] is the integer that the [:id]
    segment spells; the store casts it to the type of the primary key, a
    32-bit integer, and fails when it lies outside that type. *)
Record request := Request {
  authorization : option string;      (* req.headers.authorization *)
  req_query : gmap string JS.value;   (* req.query *)
  params_id : Z;                      (* req.params.id *)
  body : gmap string JS.value;        (* req.body *)
  parts : list upload_part;           (* file parts of a multipart body *)
  ip : string;                        (* the key of the rate limiter *)
}.

(** ** api/src/auth.js *)

Module Auth.

Definition ADMIN_EMAIL (e : env) : string :=
  or_default (env_ADMIN_EMAIL e) "".
Definition ADMIN_PASSWORD (e : env) : string :=
  or_default (env_ADMIN_PASSWORD e) "".
Definition JWT_SECRET (e : env) : string :=
  or_default (env_JWT_SECRET e) "dev-secret-change-me".

(** What a middleware does: answer, or call [next()] with [req.user]. *)
Inductive guard_result :=
  | Respond (r : response)
  | Next (user : jwt_payload).

Section WithLibs.
Context `{Libs}.

Definition seven_days : Z := 7 * 24 * 60 * 60.

Definition login (e : env) (now : Z) (email password : string)
  : option string :=
  if decide (ADMIN_EMAIL e = "" ∨ ADMIN_PASSWORD e = "") then None
  else if decide (email = "" ∨ password = "") then None
  else if decide (JS.toLowerCase email ≠ JS.toLowerCase (ADMIN_EMAIL e))
  then None
  else if decide (password ≠ ADMIN_PASSWORD e) then None
  else
    Some (jwt_sign
            (JwtPayload (Some "admin") (Some "admin") (Some (ADMIN_EMAIL e)))
            (JWT_SECRET e) now seven_days).

(** [h.match(/^Bearer (.+)$/)] and its first group *)
Definition extractBearer (req : request) : string :=
  let h := or_default (authorization req) "" in
  match JS.strip_prefix "Bearer " h with
  | Some t =>
      if decide (t = "") then ""
      else if JS.forallb_string (λ c, negb (JS.is_line_terminator c)) t
      then t else ""
  | None => ""
  end.

Definition verifyAdmin (e : env) (now : Z) (token : string)
  : option jwt_payload :=
  if decide (token = "") then None
  else
    match jwt_verify token (JWT_SECRET e) now with
    | Some payload =>
        if decide (jwt_role payload = Some "admin") then Some payload
        else None
    | None => None
    end.

Definition unauthorized : response := Response 401 (BError "Unauthorized").

(** Strict guard: only [Authorization: Bearer] is accepted. *)
Definition requireAdmin (e : env) (now : Z) (req : request) : guard_result :=
  match verifyAdmin e now (extractBearer req) with
  | None => Respond unauthorized
  | Some payload => Next payload
  end.

(** Lenient guard: the header, or else a [?token=] query parameter. *)
Definition requireAdminAllowQuery (e : env) (now : Z) (req : request)
  : guard_result :=
  let token := extractBearer req in
  let token :=
    match JS.is_string (req_query req !! "token") with
    | Some q => if decide (token = "") then q else token
    | None => token
    end in
  match verifyAdmin e now token with
  | None => Respond unauthorized
  | Some payload => Next payload
  end.

End WithLibs.

End Auth.

(** ** The SQL operators the statements use *)

Module Sql.

(** [s LIKE p], with backslash as the escape character: [%] stands for any
    run of characters, [_] for any single one.  A pattern that ends in a
    bare escape is an error in the store; the patterns built below end in
    [%] and never reach that case. *)
Fixpoint like (p s : string) : bool :=
  match p with
  | EmptyString => bool_decide (s = "")
  | String c p' =>
      if Ascii.eqb c "%" then
        (fix any (s : string) : bool :=
           like p' s
           || match s with
              | String _ s' => any s'
              | EmptyString => false
              end) s
      else if Ascii.eqb c "_" then
        match s with
        | String _ s' => like p' s'
        | EmptyString => false
        end
      else if Ascii.eqb c "\" then
        match p', s with
        | String d p'', String x s' => Ascii.eqb d x && like p'' s'
        | _, _ => false
        end
      else
        match s with
        | String x s' => Ascii.eqb c x && like p' s'
        | EmptyString => false
        end
  end.

(** [LOWER(s)]; on the alphabet of the model it is [toLowerCase]. *)
Definition LOWER (s : string) : string := JS.toLowerCase s.

(** [LEFT(s, n)] for a non-negative [n] *)
Fixpoint LEFT (s : string) (n : nat) : string :=
  match n, s with
  | S k, String c r => String c (LEFT r k)
  | _, _ => EmptyString
  end.

(** [COALESCE(x, d)] *)
Definition COALESCE {A} (x : option A) (d : A) : A := default d x.

End Sql.

(** ** The store: the two tables of the schema *)

Module Store.

(** A row of [quotes]; the [id] is the key it is stored under.  [q_urgency]
    is only meaningful when the table has the optional column. *)
Record quote := Quote {
  q_name : string;
  q_treatment : option string;
  q_email : string;
  q_phone : string;
  q_whatsapp : option string;
  q_country : option string;
  q_urgency : option string;
  q_notes : option string;
  q_consent : option bool;
  q_status : string;
  q_created_at : Z;
  q_updated_at : Z;
}.

(** A row of [files] *)
Record file := File {
  f_quote_id : Z;
  f_original_name : option string;
  f_mime_type : option string;
  f_size : option Z;
  f_path : string;
  f_created_at : Z;
}.

(** The database.  [quotes_id_seq] and [files_id_seq] hold the last value
    the SERIAL sequences gave out; [pg_now] is the last reading of the
    store's clock (microseconds) and [pg_elapse] the time that passes
    until [now()] is read again, a microsecond at least; [pg_left] bounds
    the statements the store still answers before it becomes unreachable
    ([None]: it stays up). *)
Record db := Db {
  quotes : gmap Z quote;
  quotes_id_seq : Z;
  files : gmap Z file;
  files_id_seq : Z;
  urgency_column : bool;
  pg_now : Z;
  pg_elapse : positive;
  pg_left : option nat;
}.

Definition set_quotes (d : db) (m : gmap Z quote) : db :=
  Db m (quotes_id_seq d) (files d) (files_id_seq d) (urgency_column d)
     (pg_now d) (pg_elapse d) (pg_left d).
Definition set_quotes_id_seq (d : db) (n : Z) : db :=
  Db (quotes d) n (files d) (files_id_seq d) (urgency_column d)
     (pg_now d) (pg_elapse d) (pg_left d).
Definition set_files (d : db) (m : gmap Z file) : db :=
  Db (quotes d) (quotes_id_seq d) m (files_id_seq d) (urgency_column d)
     (pg_now d) (pg_elapse d) (pg_left d).
Definition set_files_id_seq (d : db) (n : Z) : db :=
  Db (quotes d) (quotes_id_seq d) (files d) n (urgency_column d)
     (pg_now d) (pg_elapse d) (pg_left d).
Definition set_pg_now (d : db) (t : Z) : db :=
  Db (quotes d) (quotes_id_seq d) (files d) (files_id_seq d)
     (urgency_column d) t (pg_elapse d) (pg_left d).
Definition set_pg_left (d : db) (n : option nat) : db :=
  Db (quotes d) (quotes_id_seq d) (files d) (files_id_seq d)
     (urgency_column d) (pg_now d) (pg_elapse d) n.

(** The clock moves on: a statement that evaluates [now()] reads a time
    later than the one read before. *)
Definition tick (d : db) : db :=
  set_pg_now d (pg_now d + Z.pos (pg_elapse d)).

(** [integer], the type of both primary keys ([SERIAL]).  A parameter that
    is compared with a key is cast to this type, and the statement fails
    (error 22003) when the value lies outside it. *)
Definition int4 (n : Z) : Prop := -2147483648 ≤ n ≤ 2147483647.

#[global] Instance int4_dec n : Decision (int4 n) := and_dec _ _.

(** [bigint], the type of the counts of LIMIT and OFFSET *)
Definition int8 (n : Z) : Prop :=
  -9223372036854775808 ≤ n ≤ 9223372036854775807.

#[global] Instance int8_dec n : Decision (int8 n) := and_dec _ _.

(** The status values the CHECK constraint of the table admits. *)
Definition status_check : list string :=
  ["pending"; "reviewing"; "quoted"; "scheduled"; "closed"; "cancelled"].

(** A statement either fails ([None]) or returns a result; in both cases
    it leaves a database behind. *)
Definition stmt (A : Type) : Type := db → option A * db.

(** [SELECT 1 FROM information_schema.columns WHERE table_name = 'quotes'
    AND column_name = 'urgency'], as its [rowCount] *)
Definition select_urgency_column : stmt Z :=
  λ d, (Some (if urgency_column d then 1 else 0), d).

(** The values of an [INSERT INTO quotes]; status and both timestamps are
    left to their column defaults. *)
Record quote_values := QuoteValues {
  v_name : string;
  v_treatment : option string;
  v_email : string;
  v_phone : string;
  v_whatsapp : option string;
  v_country : option string;
  v_urgency : option (option string);   (* [None]: column not listed *)
  v_notes : option string;
  v_consent : bool;
}.

(** [INSERT INTO quotes (...) VALUES (...) RETURNING id, created_at] *)
Definition insert_quote (v : quote_values) : stmt (Z * Z) :=
  λ d,
    if bool_decide (is_Some (v_urgency v)) && negb (urgency_column d)
    then (None, d)
    else
      let id := quotes_id_seq d + 1 in
      let d := set_quotes_id_seq (tick d) id in
      match quotes d !! id with
      | Some _ => (None, d)
      | None =>
          let row :=
            Quote (v_name v) (v_treatment v) (v_email v) (v_phone v)
                  (v_whatsapp v) (v_country v) (default None (v_urgency v))
                  (v_notes v) (Some (v_consent v))
                  "pending" (pg_now d) (pg_now d) in
          (Some (id, pg_now d), set_quotes d (<[id := row]> (quotes d)))
      end.

(** [INSERT INTO files (quote_id, original_name, mime_type, size, path)
    VALUES ($1,$2,$3,$4,$5)] *)
Definition insert_file (quote_id : Z) (original_name mime_type : string)
    (size : Z) (path : string) : stmt unit :=
  λ d,
    let id := files_id_seq d + 1 in
    let d := set_files_id_seq (tick d) id in
    match files d !! id, quotes d !! quote_id with
    | None, Some _ =>
        let row :=
          File quote_id (Some original_name) (Some mime_type) (Some size)
               path (pg_now d) in
        (Some (), set_files d (<[id := row]> (files d)))
    | _, _ => (None, d)
    end.

Definition with_status (status : string) (now : Z) (q : quote) : quote :=
  Quote (q_name q) (q_treatment q) (q_email q) (q_phone q) (q_whatsapp q)
        (q_country q) (q_urgency q) (q_notes q) (q_consent q)
        status (q_created_at q) now.

(** [UPDATE quotes SET status=$1, updated_at=now() WHERE id=$2
    RETURNING id, status, updated_at]; the result is [rows[0]].  The
    statement fails when [$2] is no [integer]. *)
Definition update_status (status : string) (id : Z)
  : stmt (option (Z * string * Z)) :=
  λ d,
    if bool_decide (int4 id) then
      match quotes d !! id with
      | None => (Some None, d)
      | Some q =>
          if bool_decide (status ∈ status_check) then
            let d := tick d in
            (Some (Some (id, status, pg_now d)),
             set_quotes d
               (<[id := with_status status (pg_now d) q]> (quotes d)))
          else (None, d)
      end
    else (None, d).

(** [SELECT * FROM files WHERE id=$1], as [rows[0]]; the statement fails
    when [$1] is no [integer]. *)
Definition select_file (id : Z) : stmt (option file) :=
  λ d, if bool_decide (int4 id) then (Some (files d !! id), d) else (None, d).

(** A condition of the WHERE clause the list route assembles. *)
Inductive cond :=
  | StatusEq (status : string)
  | TextLike (pat : string).

Definition holds (c : cond) (q : quote) : bool :=
  match c with
  | StatusEq s => bool_decide (q_status q = s)
  | TextLike pat =>
      Sql.like pat (Sql.LOWER (q_name q))
      || Sql.like pat (Sql.LOWER (q_email q))
      || Sql.like pat (Sql.LOWER (Sql.COALESCE (q_notes q) ""))
  end.

Definition newer_first (a b : Z * quote) : Prop :=
  (q_created_at b.2 ≤ q_created_at a.2)%Z.

#[global] Instance newer_first_dec a b : Decision (newer_first a b) :=
  Z_le_dec (q_created_at b.2) (q_created_at a.2).

(** A row of the list, as the driver hands it to the route *)
Definition to_summary (r : Z * quote) : summary :=
  Summary r.1 (q_name r.2) (q_treatment r.2) (q_status r.2)
          (JS.to_Date (q_created_at r.2))
          (Sql.LEFT (Sql.COALESCE (q_notes r.2) "") 160).

(** [SELECT id, name, treatment, status, created_at,
    LEFT(COALESCE(notes,''),160) AS snippet FROM quotes WHERE ... ORDER BY
    created_at DESC LIMIT $n OFFSET $m].  Rows created at the same instant
    come in the order the sort leaves them in.  The statement fails when
    a count is negative or no [bigint]. *)
Definition select_summaries (where_ : list cond) (limit offset : Z)
  : stmt (list summary) :=
  λ d,
    if bool_decide (limit < 0 ∨ offset < 0 ∨ ¬ int8 limit ∨ ¬ int8 offset)
    then (None, d)
    else
      let rows :=
        filter (λ r, Forall (λ c, holds c r.2) where_)
               (map_to_list (quotes d)) in
      let rows := merge_sort newer_first rows in
      (Some (to_summary <$> take (Z.to_nat limit) (drop (Z.to_nat offset) rows)),
       d).

End Store.

(** ** api/src/server.js *)

Module Server.
Import Store.

(** What the process can reach: the store, the upload directory (the set
    of paths that exist), the cached answer of the column probe, the
    counters of the rate limiter for the current window, and the clock
    the token library reads (seconds). *)
Record world := World {
  store : db;
  disk : gset string;
  HAS_URGENCY : option bool;
  hits : gmap string nat;
  node_now : Z;
}.

Definition set_store (w : world) (d : db) : world :=
  World d (disk w) (HAS_URGENCY w) (hits w) (node_now w).
Definition set_disk (w : world) (s : gset string) : world :=
  World (store w) s (HAS_URGENCY w) (hits w) (node_now w).
Definition set_HAS_URGENCY (w : world) (b : option bool) : world :=
  World (store w) (disk w) b (hits w) (node_now w).
Definition set_hits (w : world) (h : gmap string nat) : world :=
  World (store w) (disk w) (HAS_URGENCY w) h (node_now w).

Inductive exn :=
  | ZodError
  | PgError.

(** Handler code: it reads and writes the world and may throw; what was
    written before a throw stays written. *)
Definition M (A : Type) : Type := world → (exn + A) * world.

Definition ret {A} (a : A) : M A := λ w, (inr a, w).

Definition bind {A B} (m : M A) (f : A → M B) : M B :=
  λ w,
    match m w with
    | (inr a, w') => f a w'
    | (inl e, w') => (inl e, w')
    end.

Notation "'let!' x := m 'in' k" := (bind m (λ x, k))
  (at level 10, x name, k at level 200).

Definition throw {A} (e : exn) : M A := λ w, (inl e, w).

(** [try { ... } catch (e) { ... }] around a handler body *)
Definition try_catch (m : M response) (handler : exn → response)
  : world → response * world :=
  λ w,
    match m w with
    | (inr r, w') => (r, w')
    | (inl e, w') => (handler e, w')
    end.

(** [await query(sql, params)] of [db.js] *)
Definition query {A} (s : stmt A) : M A :=
  λ w,
    match pg_left (store w) with
    | Some O => (inl PgError, w)
    | budget =>
        match s (set_pg_left (store w) (Nat.pred <$> budget)) with
        | (Some a, d) => (inr a, set_store w d)
        | (None, d) => (inl PgError, set_store w d)
        end
    end.

Definition UPLOAD_DIR (e : env) : string :=
  or_default (env_UPLOAD_DIR e) "/data/uploads".

Definition server_error : response := Response 500 (BError "Server error").

(** *** Uploads (multer) *)

Inductive multer_error :=
  | LIMIT_FILE_COUNT
  | LIMIT_UNEXPECTED_FILE
  | LIMIT_FILE_SIZE.

Record limits := Limits { fileSize : Z; max_files : nat }.

Definition upload_limits : limits := Limits (10 * 1024 * 1024) 10.

(** [upload.array(field)]: the file parts are taken in order; a part
    beyond the file count, under another field name, or longer than
    [fileSize] bytes aborts the upload with an error. *)
Fixpoint upload_array (field : string) (l : limits) (seen : nat)
    (ps : list upload_part) : multer_error + list upload_part :=
  match ps with
  | [] => inr []
  | p :: ps' =>
      if decide (seen = max_files l) then inl LIMIT_FILE_COUNT
      else if decide (part_fieldname p ≠ field) then inl LIMIT_UNEXPECTED_FILE
      else if decide (fileSize l < part_size p) then inl LIMIT_FILE_SIZE
      else
        match upload_array field l (S seen) ps' with
        | inr fs => inr (p :: fs)
        | inl err => inl err
        end
  end.

(** The files the disk storage engine leaves in the upload directory. *)
Definition stored_paths (e : env) (fs : list upload_part) : gset string :=
  list_to_set ((λ f, UPLOAD_DIR e +:+ "/" +:+ stored_as f) <$> fs).

(** *** Rate limit (public submit): 20 requests per window and client *)

Definition limitQuotes (req : request) (w : world) : option response * world :=
  let n := S (default O (hits w !! ip req)) in
  let w := set_hits w (<[ip req := n]> (hits w)) in
  if decide (20 < n)%nat
  then (Some (Response 429
                (BText "Too many requests, please try again later.")), w)
  else (None, w).

(** *** DB feature detection (urgency column) *)

Definition hasUrgencyColumn : M bool :=
  λ w,
    match HAS_URGENCY w with
    | Some b => (inr b, w)
    | None =>
        match query select_urgency_column w with
        | (inr rowCount, w') =>
            let b := bool_decide (0 < rowCount) in
            (inr b, set_HAS_URGENCY w' (Some b))
        | (inl _, w') => (inr false, set_HAS_URGENCY w' (Some false))
        end
    end.

(** *** Global error guard *)

Definition error_guard (err : multer_error) : response := server_error.

(** *** PUBLIC: submit quote (multipart) *)

Record quote_data := QuoteData {
  d_name : string;
  d_treatment : option string;
  d_email : string;
  d_phone : string;
  d_whatsapp : option string;
  d_country : option string;
  d_urgency : option string;
  d_notes : option string;
  d_consent : option string;
}.

(** [z.string()] with a refinement *)
Definition z_string (check : string → bool) (v : JS.prop) : option string :=
  match v with
  | Some (JS.Str s) => if check s then Some s else None
  | _ => None
  end.

(** [z.string()....optional()] and [z.enum([...]).optional()] *)
Definition z_optional (check : string → bool) (v : JS.prop)
  : option (option string) :=
  match v with
  | None => Some None
  | _ => Some <$> z_string check v
  end.

Definition min_length (n : nat) (s : string) : bool :=
  bool_decide (n ≤ String.length s)%nat.
Definition max_length (n : nat) (s : string) : bool :=
  bool_decide (String.length s ≤ n)%nat.
Definition one_of (l : list string) (s : string) : bool := bool_decide (s ∈ l).

(** The urgency values of the form, with the e-grave of the first one as
    code unit 232.  The source has a third value, ['Dans 1–3 mois'], whose
    dash is U+2013: it lies outside the alphabet of the model, no string
    of the model equals it, and so it does not appear in this list. *)
Definition urgency_values : list string :=
  ["D" +:+ String (ascii_of_N 232) "s que possible"; "Plus tard"].

Section WithLibs.
Context `{Libs}.

(** [QuoteSchema.parse(req.body)]; [None] is a [ZodError]. *)
Definition QuoteSchema_parse (b : gmap string JS.value) : option quote_data :=
  name ← z_string (min_length 2) (b !! "name");
  treatment ← z_optional (λ _, true) (b !! "treatment");
  email ← z_string zod_email (b !! "email");
  phone ← z_string (min_length 4) (b !! "phone");
  whatsapp ← z_optional (λ _, true) (b !! "whatsapp");
  country ← z_optional (λ _, true) (b !! "country");
  urgency ← z_optional (one_of urgency_values) (b !! "urgency");
  notes ← z_optional (max_length 5000) (b !! "notes");
  consent ← z_optional (one_of ["true"; "false"]) (b !! "consent");
  Some (QuoteData name treatment email phone whatsapp country urgency notes
                  consent).

(** [x || null] on an optional string *)
Definition or_null (x : option string) : option string :=
  match x with
  | Some s => if decide (s = "") then None else Some s
  | None => None
  end.

(** [for (const f of req.files) await query(INSERT INTO files ...)] *)
Fixpoint link_files (quoteId : Z) (fs : list upload_part) : M unit :=
  match fs with
  | [] => ret ()
  | f :: fs' =>
      let! _ := query (insert_file quoteId (part_originalname f)
                                   (part_mimetype f) (part_size f)
                                   (stored_as f)) in
      link_files quoteId fs'
  end.

Definition submit_body (req : request) (files : list upload_part)
  : M response :=
  let! data := match QuoteSchema_parse (body req) with
                | Some data => ret data
                | None => throw ZodError
                end in
  let consent := bool_decide (d_consent data = Some "true") in
  let! has_urgency := hasUrgencyColumn in
  let vals :=
    QuoteValues (d_name data) (or_null (d_treatment data)) (d_email data)
                (d_phone data) (or_null (d_whatsapp data))
                (or_null (d_country data))
                (if has_urgency then Some (or_null (d_urgency data)) else None)
                (or_null (d_notes data)) consent in
  let! row := query (insert_quote vals) in
  let quoteId := row.1 in
  let! _ := link_files quoteId files in
  ret (json (BId quoteId)).

Definition submit_handler (req : request) (files : list upload_part)
  : world → response * world :=
  try_catch (submit_body req files)
    (λ e, match e with
          | ZodError => Response 400 (BError "Invalid payload")
          | _ => server_error
          end).

(** [app.post('/api/quotes/multipart', limitQuotes, upload.array('files'),
    handler)], with the global error guard behind it.  An upload that is
    refused leaves nothing in the upload directory. *)
Definition post_quotes_multipart (e : env) (req : request)
  : world → response * world :=
  λ w,
    match limitQuotes req w with
    | (Some r, w) => (r, w)
    | (None, w) =>
        match upload_array "files" upload_limits 0 (parts req) with
        | inl err => (error_guard err, w)
        | inr files =>
            submit_handler req files
              (set_disk w (disk w ∪ stored_paths e files))
        end
    end.

(** *** AUTH *)

Definition LoginSchema_parse (b : gmap string JS.value)
  : option (string * string) :=
  email ← z_string zod_email (b !! "email");
  password ← z_string (min_length 1) (b !! "password");
  Some (email, password).

Definition post_auth_login (e : env) (req : request)
  : world → response * world :=
  try_catch
    (λ w,
       match LoginSchema_parse (body req) with
       | None => (inl ZodError, w)
       | Some (email, password) =>
           match Auth.login e (node_now w) email password with
           | Some token =>
               if decide (token = "")
               then (inr (Response 401 (BError "Bad credentials")), w)
               else (inr (json (BToken token)), w)
           | None => (inr (Response 401 (BError "Bad credentials")), w)
           end
       end)
    (λ e, match e with
          | ZodError => Response 400 (BError "Invalid login payload")
          | _ => server_error
          end).

(** A route behind a guard: the handler only runs when the guard calls
    [next()]. *)
Definition guarded (guard : Z → request → Auth.guard_result)
    (handler : request → world → response * world) (req : request)
  : world → response * world :=
  λ w,
    match guard (node_now w) req with
    | Auth.Respond r => (r, w)
    | Auth.Next _ => handler req w
    end.

(** *** ADMIN: list quotes *)

Definition allowedStatuses : list string :=
  ["pending"; "reviewing"; "quoted"; "scheduled"; "closed"; "cancelled"].

Definition list_status (req : request) : option string :=
  match JS.is_string (req_query req !! "status") with
  | Some s => if bool_decide (s ∈ allowedStatuses) then Some s else None
  | None => None
  end.

Definition list_q (req : request) : string :=
  JS.toLowerCase (JS.trim (JS.nullish_toString (req_query req !! "q"))).

Definition list_limit (req : request) : Z :=
  Z.max 1 (Z.min 200 (JS.num_or (JS.parseInt (req_query req !! "limit")) 20)).

Definition list_offset (req : request) : Z :=
  Z.max 0 (JS.num_or (JS.parseInt (req_query req !! "offset")) 0).

Definition list_where (req : request) : list cond :=
  match list_status req with Some s => [StatusEq s] | None => [] end
  ++ (if decide (list_q req = "") then []
      else [TextLike ("%" +:+ list_q req +:+ "%")]).

(** The limit and the offset are Numbers; the driver writes each out as
    text ([String(n)]) for the store to read as a count. *)
Definition list_handler (req : request) : world → response * world :=
  try_catch
    (let! rows := query
                    (select_summaries (list_where req)
                                      (JS.spelled (list_limit req))
                                      (JS.spelled (list_offset req))) in
     ret (json (BRows rows)))
    (λ _, server_error).

Definition get_admin_quotes (e : env) : request → world → response * world :=
  guarded (Auth.requireAdmin e) list_handler.

(** *** ADMIN: update status *)

Definition status_handler (req : request) : world → response * world :=
  try_catch
    (let status := JS.or_empty_toString (body req !! "status") in
     if bool_decide (status ∈ allowedStatuses) then
       let! row := query (update_status status (params_id req)) in
       match row with
       | None => ret (Response 404 (BError "Not found"))
       | Some (id, status, updated_at) =>
           ret (json (BUpdated id status (JS.to_Date updated_at)))
       end
     else ret (Response 400 (BError "Bad status")))
    (λ _, server_error).

Definition patch_admin_quote_status (e : env)
  : request → world → response * world :=
  guarded (Auth.requireAdmin e) status_handler.

(** *** ADMIN: secure file download *)

Definition dquote : string := String (ascii_of_N 34) EmptyString.

(** [a || b] on optional strings *)
Definition or_else (a b : option string) : option string :=
  match or_null a with Some s => Some s | None => b end.

Definition file_handler (e : env) (req : request) : world → response * world :=
  try_catch
    (let! f := query (select_file (params_id req)) in
     match f with
     | None => ret (Response 404 (BError "Not found"))
     | Some f =>
         let full := UPLOAD_DIR e +:+ "/" +:+ f_path f in
         λ w,
           if decide (full ∈ disk w) then
             let type :=
               default "application/octet-stream"
                 (or_else (f_mime_type f)
                    (or_null (f_original_name f ≫= mime_lookup))) in
             let name :=
               encodeURIComponent (default "null" (f_original_name f)) in
             (inr (json (BStream (res_type type)
                           ("inline; filename=" +:+ dquote +:+ name +:+ dquote)
                           full)), w)
           else (inr (Response 404 (BError "Missing file")), w)
     end)
    (λ _, server_error).

Definition get_admin_file (e : env) : request → world → response * world :=
  guarded (Auth.requireAdminAllowQuery e) (file_handler e).

End WithLibs.

End Server.

(** ** Vocabulary of the properties *)

Module Props.
Import Store Server.

(** Both halves of the admin identity are set. *)
Definition configured (e : env) : Prop :=
  Auth.ADMIN_EMAIL e ≠ "" ∧ Auth.ADMIN_PASSWORD e ≠ "".

(** The e-mail matches up to case and the password matches exactly. *)
Definition credentials_match (e : env) (email password : string) : Prop :=
  JS.toLowerCase email = JS.toLowerCase (Auth.ADMIN_EMAIL e)
  ∧ password = Auth.ADMIN_PASSWORD e.

(** A header value [Bearer t] that carries a token. *)
Definition bearer_token (t : string) : Prop :=
  t ≠ "" ∧ JS.forallb_string (λ c, negb (JS.is_line_terminator c)) t = true.




(** The request with one query parameter set, or removed. *)
Definition with_query (req : request) (k : string) (v : JS.prop) : request :=
  Request (authorization req)
          (match v with
           | Some x => <[k := x]> (req_query req)
           | None => delete k (req_query req)
           end)
          (params_id req) (body req) (parts req) (ip req).

(** The sequences are ahead of every key in use, as they are when rows
    only ever enter the tables through the API. *)
Definition db_wf (d : db) : Prop :=
  (∀ id, is_Some (quotes d !! id) → id ≤ quotes_id_seq d)
  ∧ (∀ id, is_Some (files d !! id) → id ≤ files_id_seq d).

(** Handler code that keeps the sequences ahead of the keys, whether it
    returns or throws. *)
Definition keeps_wf {A} (m : M A) : Prop :=
  ∀ w, db_wf (store w) → db_wf (store (m w).2).


(** The limiter lets one more request of this client through. *)
Definition within_rate (req : request) (w : world) : Prop :=
  (default O (hits w !! ip req) < 20)%nat.

Definition client_error (r : response) : Prop :=
  400 ≤ res_status r < 500.

End Props.

(** ** Sample data *)

Module Demo.
Import Store Server.

Fixpoint has_at (s : string) : bool :=
  match s with
  | EmptyString => false
  | String c r => Ascii.eqb c "@" || has_at r
  end.

Definition admin_claims : jwt_payload :=
  JwtPayload (Some "admin") (Some "admin") (Some "admin@smile.tn").

Definition guest_claims : jwt_payload :=
  JwtPayload (Some "guest") (Some "guest") None.

(** A stand-in for the libraries: a token is the role and the secret. *)
Definition sign (p : jwt_payload) (k : string) (now ttl : Z) : string :=
  String "a" ("dmin." +:+ k).

Definition verify (t k : string) (now : Z) : option jwt_payload :=
  if decide (t = "admin." +:+ k) then Some admin_claims
  else if decide (t = "guest." +:+ k) then Some guest_claims
  else None.

(** A text type gets its charset, every other value is sent as it is. *)
Definition content_type (t : string) : string :=
  match JS.strip_prefix "text/" t with
  | Some _ => t +:+ "; charset=utf-8"
  | None => t
  end.

Definition libs : Libs :=
  Build_Libs sign verify has_at (λ _, None) (λ s, s) content_type
             (λ p k t d (E : sign p k t d = ""),
                eq_ind (sign p k t d)
                       (λ s, match s with EmptyString => False | _ => True end)
                       I "" E).

Definition env0 : env :=
  Env (Some "admin@smile.tn") (Some "s3cret") (Some "k") None.

(** An environment without an admin identity *)
Definition env_bare : env := Env None None (Some "k") None.

Definition admin_token : string := "admin.k".

Definition req0 : request := Request None ∅ 1 ∅ [] "10.0.0.1".

Definition with_header (req : request) (h : string) : request :=
  Request (Some h) (req_query req) (params_id req) (body req) (parts req)
          (ip req).

Definition with_body (req : request) (b : gmap string JS.value) : request :=
  Request (authorization req) (req_query req) (params_id req) b (parts req)
          (ip req).

Definition with_id (req : request) (id : Z) : request :=
  Request (authorization req) (req_query req) id (body req) (parts req)
          (ip req).

Definition with_parts (req : request) (ps : list upload_part) : request :=
  Request (authorization req) (req_query req) (params_id req) (body req) ps
          (ip req).

(** A request of the administrator *)
Definition admin_req : request := with_header req0 "Bearer admin.k".

Definition jane : quote :=
  Quote "Jane Doe" None "jane@example.com" "123456" None None None
        (Some "Implants, 2 teeth") (Some true) "pending" 100 100.

Definition al : quote :=
  Quote "Al" None "al@example.com" "5550100" None None None None
        (Some false) "closed" 200 250.

Definition scan : file :=
  File 1 (Some "scan.png") (Some "image/png") (Some 2048) "f1.png" 100.

Definition lost : file :=
  File 1 (Some "xray.png") (Some "image/png") (Some 4096) "f2.png" 100.

Definition db0 : db :=
  Db {[ 1 := jane; 2 := al ]} 2 {[ 1 := scan; 2 := lost ]} 2 false 1000 7
     None.

Definition world0 : world :=
  World db0 {[ "/data/uploads/f1.png" ]} None ∅ 5000.

Definition form : gmap string JS.value :=
  {[ "name" := JS.Str "Jane Doe";
     "email" := JS.Str "jane@example.com";
     "phone" := JS.Str "123456" ]}.

End Demo.

(** ** ADMIN: quote details (server.js) *)

Module Details.
Import Store Server.

(** A row of [SELECT id, original_name, mime_type, size FROM files]; the
    stored path is not among the columns. *)
Record file_descr := FileDescr {
  fd_id : Z;
  fd_original_name : option string;
  fd_mime_type : option string;
  fd_size : option Z;
}.

(** What the route sends: [{ quote, files }], or an error document. *)
Inductive answer :=
  | Found (id : Z) (quote : Store.quote) (files : list file_descr)
  | Failed (r : response).

(** [SELECT * FROM quotes WHERE id=$1], as [rows[0]]; the statement fails
    when [$1] is no [integer]. *)
Definition select_quote (id : Z) : stmt (option quote) :=
  λ d, if bool_decide (int4 id) then (Some (quotes d !! id), d) else (None, d).

Definition to_descr (r : Z * file) : file_descr :=
  FileDescr r.1 (f_original_name r.2) (f_mime_type r.2) (f_size r.2).

(** [SELECT id, original_name, mime_type, size FROM files WHERE
    quote_id=$1]; the rows come in the order the table yields them. *)
Definition select_files_of (quote_id : Z) : stmt (list file_descr) :=
  λ d,
    (Some (to_descr <$> filter (λ r, f_quote_id r.2 = quote_id)
                               (map_to_list (files d))),
     d).

Definition details_handler (req : request) : world → answer * world :=
  λ w,
    match
      (let! quote := query (select_quote (params_id req)) in
       match quote with
       | None => ret (Failed (Response 404 (BError "Not found")))
       | Some quote =>
           let! files := query (select_files_of (params_id req)) in
           ret (Found (params_id req) quote files)
       end) w
    with
    | (inr a, w') => (a, w')
    | (inl _, w') => (Failed server_error, w')
    end.

Section WithLibs.
Context `{Libs}.

(** [app.get('/api/admin/quotes/:id', requireAdmin, handler)] *)
Definition get_admin_quote (e : env) (req : request)
  : world → answer * world :=
  λ w,
    match Auth.requireAdmin e (node_now w) req with
    | Auth.Respond r => (Failed r, w)
    | Auth.Next _ => details_handler req w
    end.

End WithLibs.

End Details.

(** ** CORS (server.js) *)

Module Cors.

(** [s.split(',')] *)
Fixpoint split_comma (s : string) : list string :=
  match s with
  | EmptyString => [EmptyString]
  | String c r =>
      if Ascii.eqb c ","
      then EmptyString :: split_comma r
      else
        match split_comma r with
        | h :: t => String c h :: t
        | [] => [String c EmptyString]
        end
  end.

(** [l.join(',')] *)
Fixpoint join_comma (l : list string) : string :=
  match l with
  | [] => EmptyString
  | [s] => s
  | s :: l' => s +:+ "," +:+ join_comma l'
  end.

Definition defaultOrigins : list string :=
  ["http://127.0.0.1:5500"; "http://localhost:5500";
   "http://127.0.0.1:3000"; "http://localhost:3000"].

(** [(process.env.CORS_ORIGINS || defaultOrigins.join(',')).split(',')
    .map(s => s.trim()).filter(Boolean)] *)
Definition allowed (CORS_ORIGINS : option string) : list string :=
  filter (λ s, s ≠ "")
         (JS.trim <$> split_comma
                        (or_default CORS_ORIGINS (join_comma defaultOrigins))).

(** What the [origin] callback hands to [cb]. *)
Inductive verdict :=
  | Allow
  | Block (message : string).

(** [origin(origin, cb)]; [None] is a request without an Origin header. *)
Definition origin (CORS_ORIGINS : option string) (o : option string) : verdict :=
  match o with
  | None => Allow
  | Some o =>
      if decide (o = "") then Allow
      else if bool_decide (o ∈ allowed CORS_ORIGINS) then Allow
      else Block ("CORS blocked: " +:+ o)
  end.

End Cors.

(** ** The middleware in front of the routes (server.js) *)

Module App.
Import Server.

(** What [express.json({ limit: '15mb' })] and [express.urlencoded] make
    of a request before a route sees it: the parsed body (the empty
    object when the request carries neither kind), or an error that is
    passed to [next] (malformed JSON, a body above the limit). *)
Inductive parsed :=
  | Body (b : gmap string JS.value)
  | Refused.

Definition set_body (req : request) (b : gmap string JS.value) : request :=
  Request (authorization req) (req_query req) (params_id req) b (parts req)
          (ip req).

Section WithLibs.
Context `{Libs}.

(** [POST /api/auth/login] as the application answers it: the CORS check
    and the body parsers come first, and an error of either skips the
    route and ends in the global error guard. *)
Definition login_route (e : env) (CORS_ORIGINS origin : option string)
    (p : parsed) (req : request) : world → response * world :=
  match Cors.origin CORS_ORIGINS origin with
  | Cors.Block _ => λ w, (server_error, w)
  | Cors.Allow =>
      match p with
      | Refused => λ w, (server_error, w)
      | Body b => post_auth_login e (set_body req b)
      end
  end.

End WithLibs.

End App.

(** ** Admin bootstrap script *)

Module Bootstrap.

(** The script: [process.exit(1)] when either variable is unset or empty,
    otherwise [INSERT INTO admin_users (email, password_hash) VALUES
    ($1,$2) ON CONFLICT (email) DO NOTHING] and [process.exit(0)].  The
    table is keyed by the e-mail the conflict clause names; [hash] is what
    [bcrypt.hash(pass, 10)] returned.

    [admin_users] is the table as the statement finds it, [None] when the
    statement fails: the store cannot be reached, or it has no such table
    (the schema of the repository creates none).  The awaited statement
    is not caught, so the script then ends on the rejection, with exit
    code 1. *)
Definition create_admin (e : env) (hash : string)
    (admin_users : option (gmap string string))
  : Z * option (gmap string string) :=
  match env_ADMIN_EMAIL e, env_ADMIN_PASSWORD e with
  | Some email, Some pass =>
      if decide (email = "" ∨ pass = "") then (1, admin_users)
      else
        match admin_users with
        | None => (1, None)
        | Some t =>
            match t !! email with
            | Some _ => (0, Some t)
            | None => (0, Some (<[email := hash]> t))
            end
        end
  | _, _ => (1, admin_users)
  end.

End Bootstrap.

(** ** Further vocabulary *)

Module Props2.
Import Store Server.

(** Handler code that keeps a property of the database, whether it
    returns or throws. *)
Definition keeps (P : db → Prop) {A} (m : M A) : Prop :=
  ∀ w, P (store w) → P (store (m w).2).

(** Handler code that leaves one aspect [f] of the world as it was. *)
Definition leaves {A X} (f : world → X) (m : M A) : Prop :=
  ∀ w, f (m w).2 = f w.

(** The CHECK constraint on [quotes.status] *)
Definition status_ok (d : db) : Prop :=
  ∀ id q, quotes d !! id = Some q → q_status q ∈ status_check.

(** The foreign key of [files.quote_id] *)
Definition fk_ok (d : db) : Prop :=
  ∀ id f, files d !! id = Some f → is_Some (quotes d !! f_quote_id f).

(** No request was updated before it was created, or after the current
    time of the store. *)
Definition times_ok (d : db) : Prop :=
  ∀ id q, quotes d !! id = Some q →
          q_created_at q ≤ q_updated_at q ∧ q_updated_at q ≤ pg_now d.


(** A part the upload accepts under the given field and limits. *)
Definition part_ok (field : string) (l : limits) (p : upload_part) : Prop :=
  part_fieldname p = field ∧ part_size p ≤ fileSize l.

Definition all_ws (s : string) : Prop := JS.forallb_string JS.is_ws s = true.

(** An origin as it can be listed: not empty, no comma, no white space
    around it. *)
Definition clean_origin (s : string) : Prop :=
  s ≠ "" ∧ JS.trim s = s
  ∧ JS.forallb_string (λ c, negb (Ascii.eqb c ",")) s = true.

(** No white space at the start. *)
Definition starts_clean (s : string) : Prop :=
  match s with
  | String c _ => JS.is_ws c = false
  | EmptyString => True
  end.

(** What the routes that only read must not touch: the rows of both
    tables and the upload directory. *)
Definition data (w : world) : gmap Z quote * gmap Z file * gset string :=
  (quotes (store w), files (store w), disk w).


End Props2.

(** ** More sample data *)

Module Demo2.
Import Store Server.

(** A second stand-in for the token library, in which a token spells out
    the payload and the secret it was signed with, so that verifying it
    gives back what was signed. *)
Fixpoint bits (p : positive) : string :=
  match p with
  | xH => EmptyString
  | xO p => String "0" (bits p)
  | xI p => String "1" (bits p)
  end.

Fixpoint unbits (s : string) : positive :=
  match s with
  | EmptyString => xH
  | String c r => if Ascii.eqb c "1" then xI (unbits r) else xO (unbits r)
  end.

Definition sign_payload (p : jwt_payload) (k : string) (now ttl : Z)
  : string :=
  String "j" (bits (encode (jwt_sub p, jwt_role p, jwt_email p, k))).

Definition verify_payload (t k : string) (now : Z) : option jwt_payload :=
  match t with
  | String c r =>
      if Ascii.eqb c "j" then
        match decode (unbits r)
              : option (option string * option string * option string
                        * string)
        with
        | Some (sub, role, email, k') =>
            if decide (k' = k) then Some (JwtPayload sub role email) else None
        | None => None
        end
      else None
  | EmptyString => None
  end.

Definition spelling_libs : Libs :=
  Build_Libs sign_payload verify_payload Demo.has_at (λ _, None) (λ s, s)
             Demo.content_type
             (λ p k t d (E : sign_payload p k t d = ""),
                eq_ind (sign_payload p k t d)
                       (λ s, match s with EmptyString => False | _ => True end)
                       I "" E).

Definition scan_part : upload_part :=
  UploadPart "files" "scan.png" "image/png" 2048 "u1.png".

(** A submission with one attachment *)
Definition submit_req : request :=
  Demo.with_parts (Demo.with_body Demo.req0 Demo.form) [scan_part].


(** The store is unreachable and the probe has not been made; the table
    does have the column. *)
Definition world_down : world :=
  World (Db ∅ 0 ∅ 0 true 1000 7 (Some O)) ∅ None ∅ 5000.

(** The store answers one more statement. *)
Definition world_failing : world :=
  World (Db {[ 1 := Demo.jane ]} 1 ∅ 0 false 1000 7 (Some 1%nat))
        ∅ (Some false) ∅ 5000.

End Demo2.

(** * Properties *)

(** ** Strings *)

Module JSFacts.

Lemma toLowerCase_empty s : JS.toLowerCase s = "" → s = "".
Proof. destruct s; [done | discriminate]. Qed.

Lemma strip_prefix_app p s : JS.strip_prefix p (p +:+ s) = Some s.
Proof.
  induction p as [| a p IH]; simpl; [done |].
  by rewrite decide_True.
Qed.

Lemma strip_prefix_Some p s r : JS.strip_prefix p s = Some r ↔ s = p +:+ r.
Proof.
  split; [| intros ->; apply strip_prefix_app].
  revert s; induction p as [| a p IH]; intros s; simpl.
  - by intros [= ->].
  - destruct s as [| b s]; [done |].
    case_decide; [| done]. subst b. intros E. by rewrite (IH _ E).
Qed.

Lemma or_default_nonempty s d : s ≠ "" → or_default (Some s) d = s.
Proof. intros Hs. unfold or_default. by rewrite decide_False. Qed.

Example parseInt_examples :
  JS.parseInt (Some (JS.Str "42")) = Some 42
  ∧ JS.parseInt (Some (JS.Str "  -7px")) = Some (-7)
  ∧ JS.parseInt (Some (JS.Str "+0")) = Some 0
  ∧ JS.parseInt (Some (JS.Str "0x10")) = Some 0
  ∧ JS.parseInt (Some (JS.Str "ten")) = None
  ∧ JS.parseInt (Some (JS.Str "")) = None
  ∧ JS.parseInt (Some (JS.Other true "3,4")) = Some 3
  ∧ JS.parseInt None = None.
Proof. by vm_compute. Qed.

(** Integers that a double holds exactly are left as they are. *)
Lemma to_double_safe n : Z.abs n < 2 ^ 53 → JS.to_double n = n.
Proof.
  intros Hn. unfold JS.to_double.
  destruct (Z.ltb_spec (Z.abs n) (2 ^ 53)) as [_ | Hge]; [done | lia].
Qed.

Lemma to_double_nonneg n : 0 ≤ n → 0 ≤ JS.to_double n.
Proof.
  intros Hn. unfold JS.to_double.
  destruct (Z.ltb_spec (Z.abs n) (2 ^ 53)) as [_ | Hge]; [done |].
  apply Z.mul_nonneg_nonneg; [lia |].
  apply Z.min_glb; [| by apply Z.pow_nonneg].
  apply Z.mul_nonneg_nonneg; [| by apply Z.pow_nonneg].
  assert (0 ≤ Z.abs n / 2 ^ (Z.log2 (Z.abs n) - 52)) as Hq.
  { apply Z_div_nonneg_nonneg; [lia | by apply Z.pow_nonneg]. }
  destruct (_ || _); lia.
Qed.








Example spelled_examples :
  JS.spelled 200 = 200
  ∧ JS.spelled 9007199254740992 = 9007199254740992
  ∧ JS.spelled 1152921504606846976 = 1152921504606847000
  ∧ JS.spelled 9223372036854774784 = 9223372036854775000
  ∧ JS.spelled 9223372036854775808 = 9223372036854776000.
Proof. by vm_compute. Qed.

Example to_double_examples :
  JS.to_double 9007199254740993 = 9007199254740992
  ∧ JS.to_double 9007199254740995 = 9007199254740996
  ∧ JS.to_double (-9007199254740993) = -9007199254740992
  ∧ JS.to_double 9223372036854775807 = 9223372036854775808
  ∧ JS.to_double 9223372036854775295 = 9223372036854774784
  ∧ JS.parseInt (Some (JS.Str "9007199254740993")) = Some 9007199254740992.
Proof. by vm_compute. Qed.

Example to_Date_examples :
  JS.to_Date 1700000000123456 = 1700000000123
  ∧ JS.to_Date (-1) = -1.
Proof. by vm_compute. Qed.

Example trim_examples :
  JS.trim "  a b  " = "a b" ∧ JS.trim "   " = "" ∧ JS.trim "x" = "x".
Proof. by vm_compute. Qed.

Example toLowerCase_examples :
  JS.toLowerCase "Admin@Smile.TN" = "admin@smile.tn"
  ∧ JS.toLowerCase (String (ascii_of_N 201) "t") = String (ascii_of_N 233) "t"
  ∧ JS.toLowerCase (String (ascii_of_N 215) "") = String (ascii_of_N 215) "".
Proof. by vm_compute. Qed.

Example like_examples :
  Sql.like "%ane%" "jane doe" = true
  ∧ Sql.like "%a_e%" "jane doe" = true
  ∧ Sql.like "%a_e%" "jae" = false
  ∧ Sql.like "%\_%" "jane" = false
  ∧ Sql.like "%\_%" "j_d" = true
  ∧ Sql.like "%%%" "" = true.
Proof. by vm_compute. Qed.

End JSFacts.

(** ** The authorization boundary *)

Module AuthSpec.
Import Props.

Section WithLibs.
Context `{Libs}.

Lemma extractBearer_header req t :
  authorization req = Some ("Bearer " +:+ t) → bearer_token t →
  Auth.extractBearer req = t.
Proof.
  intros Hh [Hne Hlt]. unfold Auth.extractBearer. rewrite Hh.
  rewrite JSFacts.or_default_nonempty by done.
  rewrite JSFacts.strip_prefix_app.
  rewrite decide_False by done. by rewrite Hlt.
Qed.

Lemma extractBearer_absent req :
  authorization req = None → Auth.extractBearer req = "".
Proof. intros Hh. unfold Auth.extractBearer. by rewrite Hh. Qed.

Lemma verifyAdmin_nonempty e now token user :
  Auth.verifyAdmin e now token = Some user → token ≠ "".
Proof. unfold Auth.verifyAdmin. by case_decide. Qed.

Lemma login_Some e now email password :
  is_Some (Auth.login e now email password)
  ↔ configured e ∧ credentials_match e email password.
Proof.
  unfold Auth.login, configured, credentials_match.
  destruct (decide (Auth.ADMIN_EMAIL e = "" ∨ Auth.ADMIN_PASSWORD e = ""))
    as [Hc | Hc].
  { split; [by intros [? ?] | tauto]. }
  destruct (decide (email = "" ∨ password = "")) as [He | He].
  { split; [by intros [? ?] |]. intros [_ [E Hp]].
    destruct He as [-> | ->].
    - symmetry in E. apply JSFacts.toLowerCase_empty in E. tauto.
    - symmetry in Hp. tauto. }
  destruct (decide (JS.toLowerCase email
                    ≠ JS.toLowerCase (Auth.ADMIN_EMAIL e))) as [Hm | Hm].
  { split; [by intros [? ?] | tauto]. }
  destruct (decide (password ≠ Auth.ADMIN_PASSWORD e)) as [Hp | Hp].
  { split; [by intros [? ?] | tauto]. }
  split; [intros _ | by eauto].
  split_and!; [tauto | tauto | by apply dec_stable | by apply dec_stable].
Qed.

Lemma post_auth_login_cases e req w email password :
  Server.LoginSchema_parse (body req) = Some (email, password) →
  Server.post_auth_login e req w =
    (match Auth.login e (Server.node_now w) email password with
     | Some token => json (BToken token)
     | None => Response 401 (BError "Bad credentials")
     end, w).
Proof.
  intros Hp. unfold Server.post_auth_login, Server.try_catch. rewrite Hp.
  unfold Auth.login. repeat case_decide; try done.
  by destruct (jwt_sign_nonempty _ _ _ _ ltac:(eassumption)).
Qed.

(** C7: any two login attempts that fail, whether for a wrong e-mail, a
    wrong password or an admin identity that is not configured, get the
    same response, 401 with the message [Bad credentials]; a login
    succeeds (a token is issued) exactly when the identity is configured,
    the e-mail matches up to case and the password matches exactly. *)
Theorem login_failure_uniform e1 e2 req1 req2 w1 w2 email1 pw1 email2 pw2 :
  Server.LoginSchema_parse (body req1) = Some (email1, pw1) →
  Server.LoginSchema_parse (body req2) = Some (email2, pw2) →
  let r1 := (Server.post_auth_login e1 req1 w1).1 in
  let r2 := (Server.post_auth_login e2 req2 w2).1 in
  ((∃ token, r1 = json (BToken token))
   ↔ configured e1 ∧ credentials_match e1 email1 pw1)
  ∧ (¬ (configured e1 ∧ credentials_match e1 email1 pw1) →
     ¬ (configured e2 ∧ credentials_match e2 email2 pw2) →
     r1 = Response 401 (BError "Bad credentials") ∧ r1 = r2).
Proof.
  intros Hp1 Hp2 r1 r2. subst r1 r2.
  rewrite (post_auth_login_cases _ _ _ _ _ Hp1).
  rewrite (post_auth_login_cases _ _ _ _ _ Hp2). simpl.
  pose proof (login_Some e1 (Server.node_now w1) email1 pw1) as L1.
  pose proof (login_Some e2 (Server.node_now w2) email2 pw2) as L2.
  destruct (Auth.login e1 _ email1 pw1) as [t1 |].
  - split.
    + split; [intros _; apply L1; by eauto | by eauto].
    + intros N1. exfalso. apply N1, L1. by eauto.
  - split.
    + split; [by intros [? ?] | intros HC; by apply L1 in HC as [? ?]].
    + intros _ N2. split; [done |].
      destruct (Auth.login e2 _ email2 pw2) as [t2 |]; [| done].
      exfalso. apply N2, L2. by eauto.
Qed.

(** C8: a valid admin token presented only as the [token] query parameter,
    with no Authorization header, passes the lenient guard and is refused
    with 401 by the strict guard. *)
Theorem query_token_lenient_only e now req token user :
  Auth.verifyAdmin e now token = Some user →
  authorization req = None →
  req_query req !! "token" = Some (JS.Str token) →
  Auth.requireAdminAllowQuery e now req = Auth.Next user
  ∧ Auth.requireAdmin e now req = Auth.Respond (Response 401 (BError "Unauthorized")).
Proof.
  intros Hv Hh Hq. unfold Auth.requireAdminAllowQuery, Auth.requireAdmin.
  rewrite (extractBearer_absent _ Hh), Hq. simpl. rewrite Hv.
  split; [done |]. reflexivity.
Qed.

(** C10: when the Authorization header carries a Bearer token, the lenient
    guard decides on that token alone and never looks at the [token] query
    parameter; with an invalid header token the answer is 401 whatever the
    query parameter holds, a valid token included. *)
Theorem bearer_header_shadows_query e now req t :
  authorization req = Some ("Bearer " +:+ t) →
  bearer_token t →
  (∀ v, Auth.requireAdminAllowQuery e now (with_query req "token" v)
        = Auth.requireAdmin e now req)
  ∧ (Auth.verifyAdmin e now t = None →
     ∀ v, Auth.requireAdminAllowQuery e now (with_query req "token" v)
          = Auth.Respond (Response 401 (BError "Unauthorized"))).
Proof.
  intros Hh Hb.
  assert (∀ v, Auth.requireAdminAllowQuery e now (with_query req "token" v)
               = Auth.requireAdmin e now req) as Hsame.
  { intros v. unfold Auth.requireAdminAllowQuery, Auth.requireAdmin.
    rewrite (extractBearer_header (with_query req "token" v) t Hh Hb).
    rewrite (extractBearer_header req t Hh Hb).
    destruct (JS.is_string _); [| done].
    rewrite decide_False; [done | apply Hb]. }
  split; [done |]. intros Hv v. rewrite Hsame.
  unfold Auth.requireAdmin. by rewrite (extractBearer_header req t Hh Hb), Hv.
Qed.

End WithLibs.

Lemma login_failure_uniform_witness :
  let wrong := Demo.with_body Demo.req0
                 {[ "email" := JS.Str "admin@smile.tn";
                    "password" := JS.Str "guess" ]} in
  let stranger := Demo.with_body Demo.req0
                    {[ "email" := JS.Str "eve@example.com";
                       "password" := JS.Str "s3cret" ]} in
  (Server.post_auth_login (H := Demo.libs) Demo.env0 wrong Demo.world0).1
    = Response 401 (BError "Bad credentials")
  ∧ (Server.post_auth_login (H := Demo.libs) Demo.env0 wrong Demo.world0).1
    = (Server.post_auth_login (H := Demo.libs) Demo.env_bare stranger
         Demo.world0).1.
Proof.
  intros wrong stranger.
  refine (proj2 (login_failure_uniform (H := Demo.libs)
                   Demo.env0 Demo.env_bare wrong stranger
                   Demo.world0 Demo.world0
                   "admin@smile.tn" "guess" "eve@example.com" "s3cret"
                   _ _) _ _).
  - vm_compute. reflexivity.
  - vm_compute. reflexivity.
  - intros [_ [_ E]]. vm_compute in E. discriminate E.
  - intros [[E _] _]. apply E. vm_compute. reflexivity.
Defined.

Lemma query_token_lenient_only_witness :
  let req := with_query Demo.req0 "token" (Some (JS.Str Demo.admin_token)) in
  Auth.requireAdminAllowQuery (H := Demo.libs) Demo.env0 5000 req
    = Auth.Next Demo.admin_claims
  ∧ Auth.requireAdmin (H := Demo.libs) Demo.env0 5000 req
    = Auth.Respond (Response 401 (BError "Unauthorized")).
Proof.
  intros req.
  apply (query_token_lenient_only (H := Demo.libs) Demo.env0 5000 req
           Demo.admin_token Demo.admin_claims).
  - vm_compute. reflexivity.
  - reflexivity.
  - vm_compute. reflexivity.
Defined.

Lemma bearer_header_shadows_query_witness :
  let req := Demo.with_header Demo.req0 "Bearer forged" in
  Auth.verifyAdmin (H := Demo.libs) Demo.env0 5000 Demo.admin_token
    = Some Demo.admin_claims
  ∧ Auth.requireAdminAllowQuery (H := Demo.libs) Demo.env0 5000
      (with_query req "token" (Some (JS.Str Demo.admin_token)))
    = Auth.Respond (Response 401 (BError "Unauthorized")).
Proof.
  intros req. split; [vm_compute; reflexivity |].
  refine (proj2 (bearer_header_shadows_query (H := Demo.libs)
                   Demo.env0 5000 req "forged" _ _) _ _).
  - reflexivity.
  - split; [discriminate | vm_compute; reflexivity].
  - vm_compute. reflexivity.
Defined.

End AuthSpec.

(** ** Status updates *)

Module StatusSpec.
Import Store Server Props Props2.

Section WithLibs.
Context `{Libs}.

Lemma query_up {A} (s : stmt A) w :
  pg_left (store w) ≠ Some O →
  query s w =
    match s (set_pg_left (store w) (Nat.pred <$> pg_left (store w))) with
    | (Some a, d) => (inr a, set_store w d)
    | (None, d) => (inl PgError, set_store w d)
    end.
Proof. intros Hup. unfold query. by destruct (pg_left (store w)) as [[| n] |]. Qed.

Lemma status_handler_bad req w :
  JS.or_empty_toString (body req !! "status") ∉ allowedStatuses →
  status_handler req w = (Response 400 (BError "Bad status"), w).
Proof.
  intros Hbad. unfold status_handler, try_catch.
  by rewrite bool_decide_eq_false_2.
Qed.

(** C1: a status update whose target status is not one of the six legal
    values is answered with a client error (400 [Bad status], or 401 when
    the caller is not the administrator) and changes nothing: every
    request keeps its status and its update timestamp. *)
Theorem bad_status_rejected e req w :
  JS.or_empty_toString (body req !! "status") ∉ allowedStatuses →
  let r := (patch_admin_quote_status e req w).1 in
  let w' := (patch_admin_quote_status e req w).2 in
  w' = w
  ∧ client_error r
  ∧ (∀ user, Auth.requireAdmin e (node_now w) req = Auth.Next user →
             r = Response 400 (BError "Bad status")).
Proof.
  intros Hbad. unfold patch_admin_quote_status, guarded. simpl.
  destruct (Auth.requireAdmin e (node_now w) req) as [r | user] eqn:Hg.
  - unfold Auth.requireAdmin in Hg.
    destruct (Auth.verifyAdmin _ _ _); [done |]. injection Hg as <-.
    split_and!; [done | by unfold client_error | done].
  - rewrite (status_handler_bad _ _ Hbad).
    split_and!; [done | by unfold client_error | done].
Qed.

(** C2, as the code has it: an update of the administrator to one of the
    six legal values sets the status of an existing request to exactly
    that value whatever it was before, sets its update timestamp to the
    time the store's clock then shows, which is strictly later than the
    old one (no request carrying a timestamp from after the clock's last
    reading), leaves every other request alone and answers with the new
    status and the new timestamp, cut to milliseconds.  For an id without
    a request the answer is 404 and no request changes, as long as the id
    is a 32-bit integer, the type of the key; for an id outside that type
    the statement fails and the answer is 500 [Server error]. *)
Theorem status_update_applies e req w user status :
  Auth.requireAdmin e (node_now w) req = Auth.Next user →
  JS.or_empty_toString (body req !! "status") = status →
  status ∈ allowedStatuses →
  pg_left (store w) ≠ Some O →
  times_ok (store w) →
  let r := (patch_admin_quote_status e req w).1 in
  let w' := (patch_admin_quote_status e req w).2 in
  (int4 (params_id req) →
   match quotes (store w) !! params_id req with
   | Some q =>
       ∃ q', quotes (store w') !! params_id req = Some q'
             ∧ q_status q' = status
             ∧ q_updated_at q' = pg_now (store w')
             ∧ q_updated_at q < q_updated_at q'
             ∧ q_created_at q' = q_created_at q
             ∧ r = json (BUpdated (params_id req) status
                                  (JS.to_Date (q_updated_at q')))
             ∧ ∀ id, id ≠ params_id req →
                     quotes (store w') !! id = quotes (store w) !! id
   | None =>
       r = Response 404 (BError "Not found")
       ∧ quotes (store w') = quotes (store w)
   end)
  ∧ (¬ int4 (params_id req) →
     r = Response 500 (BError "Server error")
     ∧ quotes (store w') = quotes (store w)).
Proof.
  intros Hg Hs Hin Hup Ht. unfold patch_admin_quote_status, guarded. simpl.
  rewrite Hg. unfold status_handler, try_catch, bind. rewrite Hs.
  rewrite bool_decide_eq_true_2 by done.
  rewrite (query_up _ _ Hup). unfold update_status. split.
  - intros Hid. rewrite (bool_decide_eq_true_2 (int4 _)) by done. simpl.
    destruct (quotes (store w) !! params_id req) as [q |] eqn:Hq; [| done].
    rewrite bool_decide_eq_true_2 by done. simpl.
    eexists. split_and!; [apply lookup_insert_eq | done | done | | done | done |].
    + simpl. destruct (Ht _ _ Hq) as [_ Hle]. lia.
    + intros id Hne. by apply lookup_insert_ne.
  - intros Hid. by rewrite (bool_decide_eq_false_2 (int4 _)) by done.
Qed.

End WithLibs.

(** An id that no request has, and the answer is not 404: the id is not
    a 32-bit integer, the statement fails and the handler answers 500. *)
Lemma absent_id_is_not_always_404 :
  let req :=
    Demo.with_id
      (Demo.with_body Demo.admin_req {[ "status" := JS.Str "quoted" ]})
      2147483648 in
  Auth.requireAdmin (H := Demo.libs) Demo.env0 (node_now Demo.world0) req
  = Auth.Next Demo.admin_claims
  ∧ quotes Demo.db0 !! 2147483648 = None
  ∧ (patch_admin_quote_status (H := Demo.libs) Demo.env0 req Demo.world0).1
    = Response 500 (BError "Server error").
Proof. intros req. split_and!; by vm_compute. Qed.

Lemma bad_status_rejected_witness :
  let req := Demo.with_body Demo.admin_req {[ "status" := JS.Str "done" ]} in
  (patch_admin_quote_status (H := Demo.libs) Demo.env0 req Demo.world0).2
    = Demo.world0
  ∧ (patch_admin_quote_status (H := Demo.libs) Demo.env0 req Demo.world0).1
    = Response 400 (BError "Bad status").
Proof.
  intros req.
  destruct (bad_status_rejected (H := Demo.libs) Demo.env0 req Demo.world0)
    as (Hw & _ & Hr).
  - apply (bool_decide_eq_false_1 _). vm_compute. reflexivity.
  - split; [exact Hw |]. apply (Hr Demo.admin_claims). vm_compute. reflexivity.
Defined.

End StatusSpec.

(** ** Submissions *)

Module SubmitSpec.
Import Store Server Props.

Lemma set_pg_left_id d : pg_left d = None → set_pg_left d None = d.
Proof. destruct d; simpl. by intros ->. Qed.

Lemma query_stays_up {A} (s : stmt A) w :
  pg_left (store w) = None →
  query s w =
    match s (store w) with
    | (Some a, d) => (inr a, set_store w d)
    | (None, d) => (inl PgError, set_store w d)
    end.
Proof.
  intros Hup. unfold query. rewrite Hup. simpl.
  by rewrite (set_pg_left_id _ Hup).
Qed.

Lemma upload_array_oversize field l seen ps p :
  p ∈ ps → fileSize l < part_size p →
  ∃ err, upload_array field l seen ps = inl err.
Proof.
  intros Hin Hbig. revert seen.
  induction ps as [| p' ps IH]; intros seen; [by apply elem_of_nil in Hin |].
  simpl. repeat case_decide; eauto.
  apply elem_of_cons in Hin as [-> | Hin]; [lia |].
  destruct (IH Hin (S seen)) as [err ->]. eauto.
Qed.

Lemma upload_array_too_many field l seen ps :
  (seen ≤ max_files l)%nat → (max_files l < seen + length ps)%nat →
  ∃ err, upload_array field l seen ps = inl err.
Proof.
  revert seen. induction ps as [| p ps IH]; intros seen Hle Hlt; simpl in *.
  - lia.
  - repeat case_decide; eauto.
    destruct (IH (S seen)) as [err ->]; [lia | lia | eauto].
Qed.

Section WithLibs.
Context `{Libs}.




(** C4, as the code has it: a submission with a file part above the
    10 MiB limit, or with more than 10 file parts, never reaches the
    handler: no row is created and nothing stays in the upload directory.
    The upload error goes to the global error guard, which answers 500
    [Server error]; only a client that is over the rate limit gets a
    client error (429) instead. *)
Theorem oversized_upload_rejected e req w :
  (∃ p, p ∈ parts req ∧ fileSize upload_limits < part_size p)
  ∨ (max_files upload_limits < length (parts req))%nat →
  let r := (post_quotes_multipart e req w).1 in
  let w' := (post_quotes_multipart e req w).2 in
  store w' = store w
  ∧ disk w' = disk w
  ∧ (within_rate req w → r = Response 500 (BError "Server error"))
  ∧ (¬ within_rate req w → res_status r = 429).
Proof.
  intros Hover.
  assert (∃ err, upload_array "files" upload_limits 0 (parts req) = inl err)
    as [err Herr].
  { destruct Hover as [(p & Hin & Hbig) | Hmany].
    - by eapply upload_array_oversize.
    - apply upload_array_too_many; simpl in *; lia. }
  unfold post_quotes_multipart, limitQuotes, within_rate. rewrite Herr.
  case_decide; simpl; split_and!; try done; intros; lia.
Qed.

End WithLibs.


(** A single 15 MB file: the answer is 500, not a client error. *)
Lemma oversized_upload_not_client_error :
  let big := UploadPart "files" "big.png" "image/png" (15 * 1024 * 1024)
               "u2.png" in
  let req := Demo.with_parts (Demo.with_body Demo.req0 Demo.form) [big] in
  fileSize upload_limits < part_size big
  ∧ ¬ client_error
        (post_quotes_multipart (H := Demo.libs) Demo.env0 req Demo.world0).1.
Proof.
  intros big req. split; [done |].
  vm_compute. intros [_ Hlt]. discriminate Hlt.
Qed.

Lemma oversized_upload_rejected_witness :
  let big := UploadPart "files" "big.png" "image/png" (15 * 1024 * 1024)
               "u2.png" in
  let req := Demo.with_parts (Demo.with_body Demo.req0 Demo.form) [big] in
  let out := post_quotes_multipart (H := Demo.libs) Demo.env0 req
               Demo.world0 in
  store out.2 = Demo.db0 ∧ out.1 = Response 500 (BError "Server error").
Proof.
  intros big req out.
  destruct (oversized_upload_rejected (H := Demo.libs) Demo.env0 req
              Demo.world0) as (Hs & _ & Hr & _).
  - left. exists big. split; [apply list_elem_of_here | done].
  - split; [exact Hs |]. apply Hr. unfold within_rate. vm_compute. lia.
Defined.

End SubmitSpec.

(** ** LIKE and substrings *)

Module LikeFacts.
Import Props.









End LikeFacts.

(** ** Listing *)

Module ListSpec.
Import Store Server Props.

Lemma parseInt_0 : JS.parseInt (Some (JS.Str "0")) = Some 0.
Proof. by vm_compute. Qed.

Lemma parseInt_1 : JS.parseInt (Some (JS.Str "1")) = Some 1.
Proof. by vm_compute. Qed.

Lemma parseInt_200 : JS.parseInt (Some (JS.Str "200")) = Some 200.
Proof. by vm_compute. Qed.

Lemma list_limit_range req : 1 ≤ list_limit req ≤ 200.
Proof. unfold list_limit. lia. Qed.

Lemma list_offset_range req : 0 ≤ list_offset req.
Proof. unfold list_offset. lia. Qed.








(** The handler looks at the request through the three values it derives
    from the query string. *)
Lemma list_handler_ext req1 req2 w :
  list_where req1 = list_where req2 →
  list_limit req1 = list_limit req2 →
  list_offset req1 = list_offset req2 →
  list_handler req1 w = list_handler req2 w.
Proof. unfold list_handler. by intros -> -> ->. Qed.

Lemma with_query_other req k v k' :
  k ≠ k' → req_query (with_query req k v) !! k' = req_query req !! k'.
Proof.
  intros Hne. unfold with_query. destruct v; simpl.
  - by apply lookup_insert_ne.
  - by apply lookup_delete_ne.
Qed.

Lemma with_query_same req k v : req_query (with_query req k v) !! k = v.
Proof.
  unfold with_query. destruct v; simpl.
  - by apply lookup_insert_eq.
  - by apply lookup_delete_eq.
Qed.

Lemma list_where_with_query req k v :
  k ≠ "status" → k ≠ "q" →
  list_where (with_query req k v) = list_where req.
Proof.
  intros H1 H2. unfold list_where, list_status, list_q.
  by rewrite !with_query_other.
Qed.

Lemma list_status_legal req s :
  req_query req !! "status" = Some (JS.Str s) → s ∈ allowedStatuses →
  list_status req = Some s.
Proof.
  intros Hq Hs. unfold list_status. rewrite Hq. simpl.
  by rewrite bool_decide_eq_true_2.
Qed.

Lemma list_status_illegal req :
  (∀ s, req_query req !! "status" = Some (JS.Str s) → s ∉ allowedStatuses) →
  list_status req = None.
Proof.
  intros Hq. unfold list_status.
  destruct (req_query req !! "status") as [[s | t r] |]; simpl; try done.
  by rewrite bool_decide_eq_false_2 by (by apply Hq).
Qed.

Section WithLibs.
Context `{Libs}.

Lemma get_admin_quotes_ext e req1 req2 w :
  authorization req1 = authorization req2 →
  list_where req1 = list_where req2 →
  list_limit req1 = list_limit req2 →
  list_offset req1 = list_offset req2 →
  get_admin_quotes e req1 w = get_admin_quotes e req2 w.
Proof.
  intros Ha Hw Hl Ho. unfold get_admin_quotes, guarded.
  unfold Auth.requireAdmin, Auth.extractBearer. rewrite Ha.
  destruct (Auth.verifyAdmin _ _ _); [| done].
  by apply list_handler_ext.
Qed.

(** C5, as the code has it: the effective limit always lies in [1,200]
    and is 20 when no limit is given; the effective offset is never
    negative and is 0 when none is given.  A negative limit behaves as
    [limit=1] and a negative offset as [offset=0], but [limit=0] is taken
    as no limit at all and behaves as the default, [limit=20]. *)
Theorem pagination_clamped e req w :
  (1 ≤ list_limit req ≤ 200 ∧ 0 ≤ list_offset req)
  ∧ (req_query req !! "limit" = None → list_limit req = 20)
  ∧ (req_query req !! "offset" = None → list_offset req = 0)
  ∧ get_admin_quotes e (with_query req "limit" (Some (JS.Str "0"))) w
    = get_admin_quotes e (with_query req "limit" (Some (JS.Str "20"))) w
  ∧ (∀ v n, JS.parseInt (Some v) = Some n → n < 0 →
            get_admin_quotes e (with_query req "limit" (Some v)) w
            = get_admin_quotes e (with_query req "limit" (Some (JS.Str "1"))) w)
  ∧ (∀ v n, JS.parseInt (Some v) = Some n → n < 0 →
            get_admin_quotes e (with_query req "offset" (Some v)) w
            = get_admin_quotes e (with_query req "offset" (Some (JS.Str "0"))) w).
Proof.
  split; [split; [apply list_limit_range | apply list_offset_range] |].
  split; [by unfold list_limit; intros -> |].
  split; [by unfold list_offset; intros -> |].
  split_and!.
  - apply get_admin_quotes_ext; [done | by rewrite !list_where_with_query | |].
    + unfold list_limit. by rewrite !with_query_same.
    + unfold list_offset. by rewrite !with_query_other.
  - intros v n Hv Hn.
    apply get_admin_quotes_ext; [done | by rewrite !list_where_with_query | |].
    + unfold list_limit. rewrite !with_query_same, Hv, parseInt_1.
      unfold JS.num_or. repeat case_decide; lia.
    + unfold list_offset. by rewrite !with_query_other.
  - intros v n Hv Hn.
    apply get_admin_quotes_ext; [done | by rewrite !list_where_with_query | |].
    + unfold list_limit. by rewrite !with_query_other.
    + unfold list_offset. rewrite !with_query_same, Hv, parseInt_0.
      unfold JS.num_or. repeat case_decide; lia.
Qed.


End WithLibs.

Lemma pagination_clamped_witness :
  get_admin_quotes (H := Demo.libs) Demo.env0
    (with_query Demo.admin_req "offset" (Some (JS.Str "-5"))) Demo.world0
  = get_admin_quotes (H := Demo.libs) Demo.env0
      (with_query Demo.admin_req "offset" (Some (JS.Str "0"))) Demo.world0.
Proof.
  refine (proj2 (proj2 (proj2 (proj2 (proj2
            (pagination_clamped (H := Demo.libs) Demo.env0 Demo.admin_req
               Demo.world0)))))
            (JS.Str "-5") (-5) _ _).
  - vm_compute. reflexivity.
  - lia.
Defined.

(** [limit=0] gives the default page of 20, which differs from the page
    of one row that [limit=1] gives. *)
Lemma limit_zero_is_not_limit_one :
  let zero := with_query Demo.admin_req "limit" (Some (JS.Str "0")) in
  let one := with_query Demo.admin_req "limit" (Some (JS.Str "1")) in
  list_limit zero = 20
  ∧ list_limit one = 1
  ∧ (get_admin_quotes (H := Demo.libs) Demo.env0 zero Demo.world0).1
    ≠ (get_admin_quotes (H := Demo.libs) Demo.env0 one Demo.world0).1.
Proof.
  intros zero one. split_and!; [by vm_compute | by vm_compute |].
  vm_compute. intros E. discriminate E.
Qed.



End ListSpec.

(** ** File retrieval *)

Module FileSpec.
Import Store Server Props.

Section WithLibs.
Context `{Libs}.

(** C6, as the code has it: a retrieval by the administrator, under an id
    that is a 32-bit integer (the type of the key), that finds no metadata
    row, or finds the row but not the file on disk, is answered 404 in
    both cases; the message tells the two apart: [Not found] for the
    missing row, [Missing file] for the missing file.  Under an id outside
    that type the statement fails and the answer is 500 [Server error]. *)
Theorem file_not_found_cases e req w user :
  Auth.requireAdminAllowQuery e (node_now w) req = Auth.Next user →
  pg_left (store w) ≠ Some O →
  let r := (get_admin_file e req w).1 in
  (int4 (params_id req) →
   match files (store w) !! params_id req with
   | None => r = Response 404 (BError "Not found")
   | Some f =>
       (UPLOAD_DIR e +:+ "/" +:+ f_path f) ∉ disk w →
       r = Response 404 (BError "Missing file")
   end)
  ∧ (¬ int4 (params_id req) → r = Response 500 (BError "Server error")).
Proof.
  intros Hg Hup. unfold get_admin_file, guarded. rewrite Hg.
  unfold file_handler, try_catch, bind.
  rewrite (StatusSpec.query_up _ _ Hup). unfold select_file. split.
  - intros Hid. rewrite bool_decide_eq_true_2 by done. simpl.
    destruct (files (store w) !! params_id req) as [f |]; [| done].
    intros Hno. simpl. by rewrite decide_False.
  - intros Hid. by rewrite bool_decide_eq_false_2 by done.
Qed.

End WithLibs.

Lemma file_not_found_cases_witness :
  (get_admin_file (H := Demo.libs) Demo.env0
     (Demo.with_id Demo.admin_req 2) Demo.world0).1
  = Response 404 (BError "Missing file").
Proof.
  refine (proj1 (file_not_found_cases (H := Demo.libs) Demo.env0
                   (Demo.with_id Demo.admin_req 2) Demo.world0
                   Demo.admin_claims _ _) _ _).
  - vm_compute. reflexivity.
  - discriminate.
  - apply (bool_decide_unpack _). vm_compute. exact I.
  - apply (bool_decide_eq_false_1 _). vm_compute. reflexivity.
Defined.

(** The two causes of a 404 are answered with different messages. *)
Lemma not_found_messages_differ :
  let no_file := Demo.with_id Demo.admin_req 2 in
  let no_row := Demo.with_id Demo.admin_req 3 in
  files Demo.db0 !! 3 = None
  ∧ files Demo.db0 !! 2 = Some Demo.lost
  ∧ ("/data/uploads/f2.png" ∉ disk Demo.world0)
  ∧ (get_admin_file (H := Demo.libs) Demo.env0 no_row Demo.world0).1
    ≠ (get_admin_file (H := Demo.libs) Demo.env0 no_file Demo.world0).1.
Proof.
  intros no_file no_row. split_and!; [by vm_compute | by vm_compute | |].
  - apply (bool_decide_eq_false_1 _). vm_compute. reflexivity.
  - vm_compute. intros E. discriminate E.
Qed.

End FileSpec.

(** ** The sequences stay ahead of the keys *)

Module Invariants.
Import Store Server Props.

Lemma db_wf_empty now step : db_wf (Db ∅ 0 ∅ 0 false now step None).
Proof. split; intros id [x Hx]; simpl in Hx; by rewrite lookup_empty in Hx. Qed.

Lemma insert_quote_wf v d : db_wf d → db_wf (insert_quote v d).2.
Proof.
  intros [Hq Hf]. unfold insert_quote.
  destruct (_ && _); [done |]. simpl.
  destruct (quotes d !! (quotes_id_seq d + 1)) eqn:E; simpl.
  - split; [| done]. simpl. intros id Hid. specialize (Hq id Hid). lia.
  - split; [| done]. simpl. intros id [x Hx].
    apply lookup_insert_Some in Hx as [[<- _] | [_ Hx]]; [lia |].
    assert (id ≤ quotes_id_seq d) by (apply Hq; by rewrite Hx). lia.
Qed.

Lemma insert_file_wf qid o m sz p d :
  db_wf d → db_wf (insert_file qid o m sz p d).2.
Proof.
  intros [Hq Hf]. unfold insert_file. simpl.
  assert (db_wf (set_files_id_seq d (files_id_seq d + 1))) as Hbump.
  { split; [done |]. simpl. intros id Hid. specialize (Hf id Hid). lia. }
  destruct (files d !! (files_id_seq d + 1)) eqn:E; [done |].
  destruct (quotes d !! qid); [| done]. simpl.
  split; [done |]. simpl. intros id [x Hx].
  apply lookup_insert_Some in Hx as [[<- _] | [_ Hx]]; [lia |].
  assert (id ≤ files_id_seq d) by (apply Hf; by rewrite Hx). lia.
Qed.

Lemma update_status_wf status id d :
  db_wf d → db_wf (update_status status id d).2.
Proof.
  intros [Hq Hf]. unfold update_status.
  case_bool_decide; [| done].
  destruct (quotes d !! id) as [q |] eqn:E; [| done].
  case_bool_decide; [| done]. split; [| done]. simpl.
  intros id' [x Hx].
  apply lookup_insert_Some in Hx as [[<- _] | [_ Hx]].
  - apply Hq. by rewrite E.
  - apply Hq. by rewrite Hx.
Qed.

Lemma select_file_reads id d : (select_file id d).2 = d.
Proof. unfold select_file. by case_bool_decide. Qed.

Lemma select_quote_reads id d : (Details.select_quote id d).2 = d.
Proof. unfold Details.select_quote. by case_bool_decide. Qed.

Lemma query_wf {A} (s : stmt A) :
  (∀ d, db_wf d → db_wf (s d).2) → keeps_wf (query s).
Proof.
  intros Hs w Hw. unfold query.
  assert (∀ n, db_wf (s (set_pg_left (store w) n)).2) as Hn.
  { intros n. apply Hs. by destruct Hw. }
  destruct (pg_left (store w)) as [[| k] |]; [done | |].
  - specialize (Hn (Nat.pred <$> Some (S k))).
    by destruct (s _) as [[a |] d].
  - specialize (Hn (Nat.pred <$> None)).
    by destruct (s _) as [[a |] d].
Qed.

Lemma bind_wf {A B} (m : M A) (f : A → M B) :
  keeps_wf m → (∀ a, keeps_wf (f a)) → keeps_wf (bind m f).
Proof.
  intros Hm Hf w Hw. unfold bind. specialize (Hm w Hw).
  destruct (m w) as [[e | a] w']; [done |]. by apply Hf.
Qed.

Lemma ret_wf {A} (a : A) : keeps_wf (ret a).
Proof. by intros w Hw. Qed.

Lemma hasUrgencyColumn_wf : keeps_wf hasUrgencyColumn.
Proof.
  intros w Hw. unfold hasUrgencyColumn.
  destruct (HAS_URGENCY w); [done |].
  pose proof (query_wf select_urgency_column (λ d Hd, Hd) w Hw) as Hq.
  by destruct (query select_urgency_column w) as [[e | n] w'].
Qed.

Section WithLibs.
Context `{Libs}.

Lemma link_files_wf quoteId fs : keeps_wf (link_files quoteId fs).
Proof.
  induction fs as [| f fs IH]; simpl; [apply ret_wf |].
  apply bind_wf; [| done]. apply query_wf. intros d. apply insert_file_wf.
Qed.

Lemma try_catch_wf m handler w :
  keeps_wf m → db_wf (store w) → db_wf (store (try_catch m handler w).2).
Proof.
  intros Hm Hw. unfold try_catch. specialize (Hm w Hw).
  by destruct (m w) as [[e | r] w'].
Qed.

(** A submission, whatever its outcome, keeps the invariant. *)
Lemma post_quotes_multipart_wf e req w :
  db_wf (store w) → db_wf (store (post_quotes_multipart e req w).2).
Proof.
  intros Hw. unfold post_quotes_multipart, limitQuotes.
  case_decide; [done |].
  destruct (upload_array _ _ _ _) as [err | files]; [done |].
  apply try_catch_wf; [| done]. unfold submit_body.
  apply bind_wf; [destruct (QuoteSchema_parse _); by intros ? ? |].
  intros data. apply bind_wf; [apply hasUrgencyColumn_wf |].
  intros b. apply bind_wf.
  { apply query_wf. intros d. apply insert_quote_wf. }
  intros row. apply bind_wf; [apply link_files_wf |].
  intros _. apply ret_wf.
Qed.

(** So does a status update. *)
Lemma patch_admin_quote_status_wf e req w :
  db_wf (store w) → db_wf (store (patch_admin_quote_status e req w).2).
Proof.
  intros Hw. unfold patch_admin_quote_status, guarded.
  destruct (Auth.requireAdmin _ _ _); [done |].
  unfold status_handler. apply try_catch_wf; [| done].
  cbv zeta. case_bool_decide; [| apply ret_wf].
  apply bind_wf.
  { apply query_wf. intros d. apply update_status_wf. }
  intros [[[id st] t] |]; apply ret_wf.
Qed.

End WithLibs.
End Invariants.

(** ** More on the guards and on login *)

Module AuthMore.
Import Props.

Section WithLibs.
Context `{Libs}.

Lemma extractBearer_iff req t :
  t ≠ "" →
  Auth.extractBearer req = t
  ↔ authorization req = Some ("Bearer " +:+ t) ∧ bearer_token t.
Proof.
  intros Hne. split; [| intros [? ?]; by apply AuthSpec.extractBearer_header].
  unfold Auth.extractBearer, bearer_token.
  destruct (JS.strip_prefix "Bearer " (or_default (authorization req) ""))
    as [t' |] eqn:Hp; [| by intros <-].
  apply JSFacts.strip_prefix_Some in Hp.
  case_decide; [by intros <- |].
  destruct (JS.forallb_string _ t') eqn:Hlt; [| by intros <-].
  intros ->. split; [| done].
  unfold or_default in Hp. destruct (authorization req) as [h |]; [| done].
  case_decide; [done |]. by rewrite Hp.
Qed.

(** X1: [extractBearer] returns a token exactly when the Authorization
    header is the word [Bearer], one space, and a non-empty rest without
    line terminators, and then it returns that rest; in every other case
    (no header, another scheme, another case of the word, an empty rest)
    it returns the empty string. *)
Theorem extractBearer_spec req t :
  t ≠ "" →
  Auth.extractBearer req = t
  ↔ authorization req = Some ("Bearer " +:+ t) ∧ bearer_token t.
Proof. apply extractBearer_iff. Qed.

Lemma requireAdmin_cases e now req :
  Auth.requireAdmin e now req =
    match Auth.verifyAdmin e now (Auth.extractBearer req) with
    | Some u => Auth.Next u
    | None => Auth.Respond (Response 401 (BError "Unauthorized"))
    end.
Proof. unfold Auth.requireAdmin. by destruct (Auth.verifyAdmin _ _ _). Qed.

Lemma verifyAdmin_Some e now t u :
  Auth.verifyAdmin e now t = Some u
  ↔ t ≠ "" ∧ jwt_verify t (Auth.JWT_SECRET e) now = Some u
    ∧ jwt_role u = Some "admin".
Proof.
  unfold Auth.verifyAdmin. case_decide.
  - split; [done | by intros [? _]].
  - destruct (jwt_verify _ _ _) as [p |]; [| split; [done | by intros (_ & ? & _)]].
    case_decide.
    + split; [by intros [= ->] | by intros (_ & [= ->] & _)].
    + split; [done | intros (_ & [= ->] & ?); done].
Qed.

Lemma requireAdmin_Next e now req u :
  Auth.requireAdmin e now req = Auth.Next u
  ↔ ∃ t, authorization req = Some ("Bearer " +:+ t)
         ∧ bearer_token t
         ∧ jwt_verify t (Auth.JWT_SECRET e) now = Some u
         ∧ jwt_role u = Some "admin".
Proof.
  rewrite requireAdmin_cases. split.
  - destruct (Auth.verifyAdmin _ _ _) as [u' |] eqn:Hv; [| done].
    intros [= ->]. apply verifyAdmin_Some in Hv as (Hne & Hv & Hr).
    exists (Auth.extractBearer req). split_and!; try done.
    + by apply (extractBearer_iff req _ Hne).
    + by apply (extractBearer_iff req _ Hne).
  - intros (t & Hh & Hb & Hv & Hr).
    rewrite (AuthSpec.extractBearer_header _ _ Hh Hb).
    assert (Auth.verifyAdmin e now t = Some u) as ->; [| done].
    apply verifyAdmin_Some. split_and!; try done. apply Hb.
Qed.

(** X2: the strict guard lets a request through exactly when its
    Authorization header is [Bearer t] for a token [t] that the library
    verifies under the configured secret and whose role claim is
    ["admin"]; [req.user] is then the verified payload.  Every other
    request is answered 401 [Unauthorized]. *)
Theorem requireAdmin_spec e now req :
  (∀ u, Auth.requireAdmin e now req = Auth.Next u
        ↔ ∃ t, authorization req = Some ("Bearer " +:+ t)
               ∧ bearer_token t
               ∧ jwt_verify t (Auth.JWT_SECRET e) now = Some u
               ∧ jwt_role u = Some "admin")
  ∧ (∀ r, Auth.requireAdmin e now req = Auth.Respond r →
          r = Response 401 (BError "Unauthorized")).
Proof.
  split; [intros u; apply requireAdmin_Next |].
  rewrite requireAdmin_cases.
  intros r. by destruct (Auth.verifyAdmin _ _ _); intros [= <-].
Qed.

Lemma requireAdminAllowQuery_Next e now req u :
  Auth.requireAdminAllowQuery e now req = Auth.Next u
  ↔ Auth.requireAdmin e now req = Auth.Next u
    ∨ (Auth.extractBearer req = ""
       ∧ ∃ t, req_query req !! "token" = Some (JS.Str t)
              ∧ Auth.verifyAdmin e now t = Some u).
Proof.
  rewrite requireAdmin_cases. unfold Auth.requireAdminAllowQuery. cbv zeta.
  destruct (decide (Auth.extractBearer req = "")) as [He | He].
  - rewrite He.
    replace (Auth.verifyAdmin e now "") with (@None jwt_payload) by done.
    destruct (req_query req !! "token") as [[t | b r] |]; simpl.
    + destruct (Auth.verifyAdmin e now t) as [u' |] eqn:Hv.
      * split; [intros [= ->]; right; eauto |].
        intros [? | (_ & t' & [= <-] & Hv')]; [done |]. by simplify_eq.
      * split; [done |].
        intros [? | (_ & t' & [= <-] & Hv')]; [done |]. by simplify_eq.
    + split; [done | intros [? | (_ & t' & ? & _)]; done].
    + split; [done | intros [? | (_ & t' & ? & _)]; done].
  - destruct (JS.is_string (req_query req !! "token")) as [q |];
      (destruct (Auth.verifyAdmin _ _ _); split; try done; try tauto;
       intros [? | [? _]]; done).
Qed.

(** X3: the lenient guard accepts every request the strict guard accepts,
    with the same payload; beyond those it accepts only requests whose
    header yields no token and whose [token] query parameter is a string
    holding a valid admin token.  A [token] parameter that is not a
    string (an array, an object) is never used. *)
Theorem requireAdminAllowQuery_spec e now req u :
  Auth.requireAdminAllowQuery e now req = Auth.Next u
  ↔ Auth.requireAdmin e now req = Auth.Next u
    ∨ (Auth.extractBearer req = ""
       ∧ ∃ t, req_query req !! "token" = Some (JS.Str t)
              ∧ Auth.verifyAdmin e now t = Some u).
Proof. apply requireAdminAllowQuery_Next. Qed.

(** X4: the token that [login] issues is accepted by both guards when it
    comes back in the Authorization header, and by the lenient guard when
    it comes back as the [token] query parameter, and [req.user] is then
    the payload that [login] signed: subject and role ["admin"] and the
    configured e-mail.  This holds as long as the library, at the time of
    the later request, verifies a token to the payload it was signed
    from, and the token has no line terminator in it. *)
Theorem login_token_accepted e now later email password token req :
  Auth.login e now email password = Some token →
  (∀ p, jwt_verify (jwt_sign p (Auth.JWT_SECRET e) now Auth.seven_days)
                   (Auth.JWT_SECRET e) later = Some p) →
  JS.forallb_string (λ c, negb (JS.is_line_terminator c)) token = true →
  let user := JwtPayload (Some "admin") (Some "admin")
                         (Some (Auth.ADMIN_EMAIL e)) in
  (authorization req = Some ("Bearer " +:+ token) →
   Auth.requireAdmin e later req = Auth.Next user
   ∧ Auth.requireAdminAllowQuery e later req = Auth.Next user)
  ∧ (authorization req = None →
     req_query req !! "token" = Some (JS.Str token) →
     Auth.requireAdminAllowQuery e later req = Auth.Next user).
Proof.
  intros Hl Hrt Hlt user.
  assert (token = jwt_sign user (Auth.JWT_SECRET e) now Auth.seven_days)
    as Htok.
  { unfold Auth.login in Hl. repeat case_decide; try done.
    by injection Hl as <-. }
  assert (token ≠ "") as Hne.
  { rewrite Htok. apply jwt_sign_nonempty. }
  assert (jwt_verify token (Auth.JWT_SECRET e) later = Some user) as Hv.
  { rewrite Htok. apply Hrt. }
  assert (Auth.verifyAdmin e later token = Some user) as Hva.
  { apply verifyAdmin_Some. by split_and!. }
  split.
  - intros Hh.
    assert (Auth.requireAdmin e later req = Auth.Next user) as Hs.
    { apply requireAdmin_Next. exists token. by split_and!. }
    split; [done |]. apply requireAdminAllowQuery_Next. by left.
  - intros Hh Hq. apply requireAdminAllowQuery_Next. right.
    split; [by apply AuthSpec.extractBearer_absent | eauto].
Qed.

(** The handler of the login route, once the body is parsed, never
    answers 500 and never changes anything. *)
Lemma post_auth_login_handler e req w :
  (Server.post_auth_login e req w).2 = w
  ∧ (Server.LoginSchema_parse (body req) = None →
     (Server.post_auth_login e req w).1
     = Response 400 (BError "Invalid login payload"))
  ∧ (is_Some (Server.LoginSchema_parse (body req)) →
     (Server.post_auth_login e req w).1
     = Response 401 (BError "Bad credentials")
     ∨ ∃ token, token ≠ ""
                ∧ (Server.post_auth_login e req w).1 = json (BToken token)).
Proof.
  unfold Server.post_auth_login, Server.try_catch.
  destruct (Server.LoginSchema_parse (body req)) as [[email password] |].
  - destruct (Auth.login e _ email password) as [token |].
    + case_decide; simpl; split_and!; try done; eauto.
    + simpl. split_and!; try done; eauto.
  - simpl. split_and!; done.
Qed.

(** X5: the login route never changes anything, and answers 500 [Server
    error] exactly when the request does not reach the handler: its
    origin is blocked by the CORS check, or the body parser refuses the
    body (malformed JSON, a body above the limit).  A body that reaches
    the handler but fails the schema (e-mail missing, not a string or not
    of e-mail form; password missing, not a string or empty) gets 400
    [Invalid login payload]; every other body gets 200 with a non-empty
    token or 401 [Bad credentials]. *)
Theorem post_auth_login_responses e cfg origin p req w :
  (App.login_route e cfg origin p req w).2 = w
  ∧ ((App.login_route e cfg origin p req w).1
     = Response 500 (BError "Server error")
     ↔ Cors.origin cfg origin ≠ Cors.Allow ∨ p = App.Refused)
  ∧ (∀ b, Cors.origin cfg origin = Cors.Allow → p = App.Body b →
       (Server.LoginSchema_parse b = None →
        (App.login_route e cfg origin p req w).1
        = Response 400 (BError "Invalid login payload"))
       ∧ (is_Some (Server.LoginSchema_parse b) →
          (App.login_route e cfg origin p req w).1
          = Response 401 (BError "Bad credentials")
          ∨ ∃ token, token ≠ ""
                     ∧ (App.login_route e cfg origin p req w).1
                       = json (BToken token))).
Proof.
  unfold App.login_route.
  destruct (Cors.origin cfg origin) as [| msg] eqn:Ho.
  2: { split_and!; [done | | done]. split; [by left | done]. }
  destruct p as [b |]; simpl.
  - destruct (post_auth_login_handler e (App.set_body req b) w)
      as (Hw & H400 & Hok).
    split; [done |]. split.
    + split; [| by intros [? | ?]]. intros Hr. exfalso.
      destruct (Server.LoginSchema_parse b) as [x |] eqn:Hb.
      * destruct Hok as [Hbad | (token & _ & Htok)]; [by eexists | |];
          simpl in *.
        -- rewrite Hbad in Hr. discriminate Hr.
        -- rewrite Htok in Hr. discriminate Hr.
      * simpl in H400. rewrite (H400 Hb) in Hr. discriminate Hr.
    + intros ? _ [= <-]. split; [exact H400 | exact Hok].
  - split_and!; [done | | done]. split; [by right | done].
Qed.

End WithLibs.

Lemma extractBearer_spec_witness :
  Auth.extractBearer (Demo.with_header Demo.req0 "Bearer abc") = "abc"
  ∧ Auth.extractBearer (Demo.with_header Demo.req0 "bearer abc") = ""
  ∧ Auth.extractBearer (Demo.with_header Demo.req0 "Bearer ") = ""
  ∧ Auth.extractBearer (Demo.with_header Demo.req0 "Basic abc") = "".
Proof.
  split.
  - apply (extractBearer_spec (Demo.with_header Demo.req0 "Bearer abc") "abc");
      [discriminate |].
    split; [reflexivity |]. split; [discriminate | reflexivity].
  - by vm_compute.
Defined.

Lemma unbits_bits p : Demo2.unbits (Demo2.bits p) = p.
Proof. induction p as [p IH | p IH |]; simpl; by rewrite ?IH. Qed.

(** The second stand-in verifies a token to the payload it was signed
    from. *)
Lemma verify_sign p k now ttl later :
  Demo2.verify_payload (Demo2.sign_payload p k now ttl) k later = Some p.
Proof.
  unfold Demo2.verify_payload, Demo2.sign_payload. simpl.
  rewrite unbits_bits, decode_encode. rewrite decide_True by done.
  by destruct p.
Qed.

Lemma login_token_accepted_witness :
  let token :=
    Demo2.sign_payload Demo.admin_claims "k" 5000 Auth.seven_days in
  let req := Demo.with_header Demo.req0 ("Bearer " +:+ token) in
  Auth.requireAdmin (H := Demo2.spelling_libs) Demo.env0 9000 req
    = Auth.Next Demo.admin_claims
  ∧ Auth.requireAdminAllowQuery (H := Demo2.spelling_libs) Demo.env0 9000 req
    = Auth.Next Demo.admin_claims.
Proof.
  intros token req.
  refine (proj1 (login_token_accepted (H := Demo2.spelling_libs) Demo.env0 5000 9000
                   "Admin@Smile.tn" "s3cret" token req _ _ _) _).
  - vm_compute. reflexivity.
  - intros p. apply verify_sign.
  - vm_compute. reflexivity.
  - reflexivity.
Defined.

Lemma post_auth_login_responses_witness :
  (App.login_route (H := Demo.libs) Demo.env0 None None
     (App.Body {[ "email" := JS.Str "admin@smile.tn" ]}) Demo.req0
     Demo.world0).1
  = Response 400 (BError "Invalid login payload")
  ∧ (App.login_route (H := Demo.libs) Demo.env0 None None App.Refused
       Demo.req0 Demo.world0).1
    = Response 500 (BError "Server error").
Proof.
  split.
  - refine (proj1 (proj2 (proj2 (post_auth_login_responses (H := Demo.libs)
              Demo.env0 None None
              (App.Body {[ "email" := JS.Str "admin@smile.tn" ]})
              Demo.req0 Demo.world0)) _ eq_refl eq_refl) _).
    vm_compute. reflexivity.
  - apply (proj1 (proj2 (post_auth_login_responses (H := Demo.libs)
              Demo.env0 None None App.Refused Demo.req0 Demo.world0))).
    right. reflexivity.
Defined.

End AuthMore.

(** ** What a submission leaves behind *)

Module SubmitMore.
Import Store Server Props Props2.




Section WithLibs.
Context `{Libs}.



Lemma query_leaves {A X} (f : world → X) (s : stmt A) :
  (∀ w d, f (set_store w d) = f w) → leaves f (query s).
Proof.
  intros Hf w. unfold query.
  destruct (pg_left (store w)) as [[| n] |]; [done | |];
    destruct (s _) as [[a |] d]; simpl; apply Hf.
Qed.

Lemma bind_leaves {A B X} (f : world → X) (m : M A) (k : A → M B) :
  leaves f m → (∀ a, leaves f (k a)) → leaves f (bind m k).
Proof.
  intros Hm Hk w. unfold bind. specialize (Hm w).
  destruct (m w) as [[e' | a] w']; [done |]. simpl in Hm.
  by rewrite Hk.
Qed.

Lemma hasUrgencyColumn_leaves {X} (f : world → X) :
  (∀ w d, f (set_store w d) = f w) →
  (∀ w b, f (set_HAS_URGENCY w b) = f w) →
  leaves f hasUrgencyColumn.
Proof.
  intros Hs Hu w. unfold hasUrgencyColumn.
  destruct (HAS_URGENCY w); [done |].
  pose proof (query_leaves f select_urgency_column Hs w) as Hq.
  destruct (query select_urgency_column w) as [[e' | n] w']; simpl in *;
    by rewrite Hu.
Qed.

Lemma link_files_leaves {X} (f : world → X) quoteId fs :
  (∀ w d, f (set_store w d) = f w) → leaves f (link_files quoteId fs).
Proof.
  intros Hs. induction fs as [| p fs IH]; simpl; [done |].
  apply bind_leaves; [by apply query_leaves | done].
Qed.

Lemma submit_handler_leaves {X} (f : world → X) req fs w :
  (∀ w d, f (set_store w d) = f w) →
  (∀ w b, f (set_HAS_URGENCY w b) = f w) →
  f (submit_handler req fs w).2 = f w.
Proof.
  intros Hs Hu. unfold submit_handler, try_catch.
  assert (leaves f (submit_body req fs)) as Hl.
  { unfold submit_body.
    apply bind_leaves; [by destruct (QuoteSchema_parse _) |]. intros data.
    apply bind_leaves; [by apply hasUrgencyColumn_leaves |]. intros b.
    apply bind_leaves; [by apply query_leaves |]. intros row.
    apply bind_leaves; [by apply link_files_leaves | done]. }
  specialize (Hl w). by destruct (submit_body req fs w) as [[e' | r] w'].
Qed.

Lemma upload_array_iff field l ps : ∀ seen fs,
  (seen ≤ max_files l)%nat →
  upload_array field l seen ps = inr fs
  ↔ fs = ps ∧ (seen + length ps ≤ max_files l)%nat
    ∧ Forall (part_ok field l) ps.
Proof.
  induction ps as [| p ps IH]; intros seen fs Hseen; simpl.
  - split; [intros [= <-]; split_and!; [done | lia | done] | by intros [-> _]].
  - destruct (decide (seen = max_files l)) as [-> | Hne].
    { split; [done | intros (_ & ? & _); lia]. }
    destruct (decide (part_fieldname p ≠ field)) as [Hf | Hf].
    { split; [done |]. intros (_ & _ & Hall).
      apply Forall_cons in Hall as [[? _] _]. done. }
    apply dec_stable in Hf.
    destruct (decide (fileSize l < part_size p)) as [Hs | Hs].
    { split; [done |]. intros (_ & _ & Hall).
      apply Forall_cons in Hall as [[_ ?] _]. lia. }
    destruct (upload_array field l (S seen) ps) as [err | fs'] eqn:Hrec.
    + split; [done |]. intros (_ & Hlen & Hall).
      apply Forall_cons in Hall as [_ Hall].
      assert (inl err = inr ps) as Habs; [| done].
      rewrite <- Hrec. apply IH; [lia |]. split_and!; [done | lia | done].
    + apply IH in Hrec as (-> & Hlen & Hall); [| lia]. split.
      * intros [= <-]. split_and!; [done | lia |].
        apply Forall_cons. split; [split; [done | lia] | done].
      * by intros (-> & _ & _).
Qed.

(** The upload lets a submission through exactly when it has at most
    10 file parts, all of them under the field ["files"] and none longer
    than 10 MiB (10485760 bytes, the bound included); the handler then
    receives the parts unchanged and in order. *)
Theorem upload_accepts_within_limits ps fs :
  upload_array "files" upload_limits 0 ps = inr fs
  ↔ fs = ps ∧ (length ps ≤ 10)%nat
    ∧ Forall (λ p, part_fieldname p = "files" ∧ part_size p ≤ 10485760) ps.
Proof. apply (upload_array_iff "files" upload_limits ps 0%nat fs). simpl. lia. Qed.

(** X6: a submission that the limiter and the upload let through but whose
    fields fail the schema is answered 400 [Invalid payload] without a
    single statement being sent to the store: no row is written.  The
    files of the upload are already in the upload directory and stay there. *)
Theorem invalid_payload_leaves_files e req w fs :
  within_rate req w →
  upload_array "files" upload_limits 0 (parts req) = inr fs →
  QuoteSchema_parse (body req) = None →
  (post_quotes_multipart e req w).1 = Response 400 (BError "Invalid payload")
  ∧ store (post_quotes_multipart e req w).2 = store w
  ∧ disk (post_quotes_multipart e req w).2 = disk w ∪ stored_paths e fs.
Proof.
  intros Hrate Hup Hparse. unfold post_quotes_multipart, limitQuotes.
  rewrite decide_False by (unfold within_rate in Hrate; lia).
  rewrite Hup. unfold submit_handler, try_catch, submit_body, bind.
  by rewrite Hparse.
Qed.


(** X8: the limiter counts every submission of a client, whatever becomes
    of it, and never touches the counter of another client.  From the
    21st submission of a window on the answer is 429 and nothing else
    happens: the upload is not taken, the store and the upload directory
    stay as they are. *)
Theorem limiter_counts_and_refuses e req w :
  let out := post_quotes_multipart e req w in
  hits out.2 = <[ip req := S (default O (hits w !! ip req))]> (hits w)
  ∧ (∀ other, other ≠ ip req → hits out.2 !! other = hits w !! other)
  ∧ (¬ within_rate req w →
     res_status out.1 = 429 ∧ store out.2 = store w ∧ disk out.2 = disk w
     ∧ HAS_URGENCY out.2 = HAS_URGENCY w).
Proof.
  intros out. subst out.
  assert (hits (post_quotes_multipart e req w).2
          = <[ip req := S (default O (hits w !! ip req))]> (hits w)) as Hh.
  { unfold post_quotes_multipart, limitQuotes.
    case_decide; [done |].
    destruct (upload_array _ _ _ _) as [err | fs]; [done |].
    by rewrite submit_handler_leaves. }
  split; [done |]. split.
  - intros other Hne. rewrite Hh. by apply lookup_insert_ne.
  - intros Hover. unfold post_quotes_multipart, limitQuotes.
    rewrite decide_True by (unfold within_rate in Hover; lia). done.
Qed.

(** X9: the probe for the urgency column never throws and is made at
    most once.  Its first answer is cached: the column's presence when
    the store answers, [false] when the store does not answer, even if
    the column exists.  Once cached, the answer is returned without a
    statement being sent, so a later call changes nothing. *)
Theorem hasUrgencyColumn_cached w :
  ∃ b, (hasUrgencyColumn w).1 = inr b
       ∧ HAS_URGENCY (hasUrgencyColumn w).2 = Some b
       ∧ hasUrgencyColumn (hasUrgencyColumn w).2
         = (inr b, (hasUrgencyColumn w).2)
       ∧ (∀ c, HAS_URGENCY w = Some c → b = c ∧ (hasUrgencyColumn w).2 = w)
       ∧ (HAS_URGENCY w = None → pg_left (store w) = Some O → b = false)
       ∧ (HAS_URGENCY w = None → pg_left (store w) ≠ Some O →
          b = urgency_column (store w)).
Proof.
  unfold hasUrgencyColumn at 1 2 4 5 6.
  destruct (HAS_URGENCY w) as [c |] eqn:Hc.
  - exists c. simpl. unfold hasUrgencyColumn. rewrite Hc.
    split_and!; try done. by intros ? [= ->].
  - destruct (decide (pg_left (store w) = Some O)) as [Hdown | Hup].
    + unfold query. rewrite Hdown. exists false. simpl.
      unfold hasUrgencyColumn. simpl. by split_and!.
    + rewrite (StatusSpec.query_up _ _ Hup). simpl.
      exists (bool_decide (0 < (if urgency_column (store w) then 1 else 0))).
      unfold hasUrgencyColumn. simpl. split_and!; try done.
      intros _ _. by destruct (urgency_column (store w)).
Qed.

End WithLibs.

Lemma upload_accepts_within_limits_witness :
  let p := UploadPart "files" "scan.png" "image/png" 10485760 "u1.png" in
  upload_array "files" upload_limits 0 [p] = inr [p]
  ∧ ∃ err, upload_array "files" upload_limits 0
             [UploadPart "files" "scan.png" "image/png" 10485761 "u1.png"]
           = inl err.
Proof.
  intros p. split.
  - apply (upload_accepts_within_limits [p] [p]).
    split_and!; [done | simpl; lia |]. repeat constructor; done.
  - by eexists.
Defined.

Lemma invalid_payload_leaves_files_witness :
  let p := UploadPart "files" "scan.png" "image/png" 2048 "u1.png" in
  let req :=
    Demo.with_parts
      (Demo.with_body Demo.req0 {[ "name" := JS.Str "J" ]}) [p] in
  let out := post_quotes_multipart (H := Demo.libs) Demo.env0 req
               Demo.world0 in
  out.1 = Response 400 (BError "Invalid payload")
  ∧ store out.2 = Demo.db0
  ∧ "/data/uploads/u1.png" ∈ disk out.2.
Proof.
  intros p req out.
  destruct (invalid_payload_leaves_files (H := Demo.libs) Demo.env0 req
              Demo.world0 [p]) as (Hr & Hs & Hd).
  - unfold within_rate. vm_compute. lia.
  - vm_compute. reflexivity.
  - vm_compute. reflexivity.
  - split_and!; [exact Hr | exact Hs |]. subst out. rewrite Hd.
    apply elem_of_union_r. apply (bool_decide_unpack _). vm_compute. exact I.
Defined.


Lemma limiter_counts_and_refuses_witness :
  let w := set_hits Demo.world0 {[ "10.0.0.1" := 20%nat ]} in
  let out := post_quotes_multipart (H := Demo.libs) Demo.env0
               (Demo.with_body Demo.req0 Demo.form) w in
  res_status out.1 = 429 ∧ store out.2 = Demo.db0
  ∧ hits out.2 !! "10.0.0.1" = Some 21%nat.
Proof.
  intros w out.
  destruct (limiter_counts_and_refuses (H := Demo.libs) Demo.env0
              (Demo.with_body Demo.req0 Demo.form) w) as (Hh & _ & Hover).
  destruct Hover as (Hr & Hs & _).
  - unfold within_rate. vm_compute. lia.
  - split_and!; [exact Hr | exact Hs |]. subst out. rewrite Hh.
    apply lookup_insert_eq.
Defined.

End SubmitMore.

(** ** What the routes keep *)

Module InvariantsMore.
Import Store Server Props Props2.

Section Keeps.
Variable P : db → Prop.
Hypothesis P_budget : ∀ d n, P d → P (set_pg_left d n).

Lemma query_keeps {A} (s : stmt A) :
  (∀ d, P d → P (s d).2) → keeps P (query s).
Proof.
  intros Hs w Hw. unfold query.
  assert (∀ n, P (s (set_pg_left (store w) n)).2) as Hn.
  { intros n. by apply Hs, P_budget. }
  destruct (pg_left (store w)) as [[| k] |]; [done | |].
  - specialize (Hn (Nat.pred <$> Some (S k))).
    by destruct (s _) as [[a |] d].
  - specialize (Hn (Nat.pred <$> None)).
    by destruct (s _) as [[a |] d].
Qed.

Lemma bind_keeps {A B} (m : M A) (f : A → M B) :
  keeps P m → (∀ a, keeps P (f a)) → keeps P (bind m f).
Proof.
  intros Hm Hf w Hw. unfold bind. specialize (Hm w Hw).
  destruct (m w) as [[e | a] w']; [done |]. by apply Hf.
Qed.

Lemma ret_keeps {A} (a : A) : keeps P (ret a).
Proof. by intros w Hw. Qed.

Lemma hasUrgencyColumn_keeps : keeps P hasUrgencyColumn.
Proof.
  intros w Hw. unfold hasUrgencyColumn.
  destruct (HAS_URGENCY w); [done |].
  pose proof (query_keeps select_urgency_column (λ d Hd, Hd) w Hw) as Hq.
  by destruct (query select_urgency_column w) as [[e | n] w'].
Qed.

Hypothesis P_insert_quote : ∀ v d, P d → P (insert_quote v d).2.
Hypothesis P_insert_file : ∀ q o m z p d, P d → P (insert_file q o m z p d).2.
Hypothesis P_update_status : ∀ s id d, P d → P (update_status s id d).2.

Context `{Libs}.

Lemma link_files_keeps quoteId fs : keeps P (link_files quoteId fs).
Proof.
  induction fs as [| f fs IH]; simpl; [apply ret_keeps |].
  apply bind_keeps; [| done]. apply query_keeps. intros d. apply P_insert_file.
Qed.

(** Every route keeps a property that the three writing statements keep. *)
Lemma routes_keep e req w :
  P (store w) →
  P (store (post_quotes_multipart e req w).2)
  ∧ P (store (patch_admin_quote_status e req w).2)
  ∧ P (store (get_admin_quotes e req w).2)
  ∧ P (store (get_admin_file e req w).2)
  ∧ P (store (Details.get_admin_quote e req w).2)
  ∧ P (store (post_auth_login e req w).2).
Proof.
  intros Hw. split_and!.
  - unfold post_quotes_multipart, limitQuotes.
    case_decide; [done |].
    destruct (upload_array _ _ _ _) as [err | fs]; [done |].
    unfold submit_handler, try_catch.
    assert (keeps P (submit_body req fs)) as Hk.
    { unfold submit_body.
      apply bind_keeps; [destruct (QuoteSchema_parse _); by intros ? ? |].
      intros data. apply bind_keeps; [apply hasUrgencyColumn_keeps |].
      intros b. apply bind_keeps.
      { apply query_keeps. intros d. apply P_insert_quote. }
      intros row. apply bind_keeps; [apply link_files_keeps |].
      intros _. apply ret_keeps. }
    match goal with |- context [submit_body req fs ?w0] =>
      specialize (Hk w0 Hw); by destruct (submit_body req fs w0) as [[x | r] w']
    end.
  - unfold patch_admin_quote_status, guarded.
    destruct (Auth.requireAdmin _ _ _); [done |].
    unfold status_handler, try_catch.
    match goal with |- context [let (_, _) := ?m w in _] =>
      assert (keeps P m) as Hk
    end.
    { cbv zeta. case_bool_decide; [| apply ret_keeps].
      apply bind_keeps.
      { apply query_keeps. intros d. apply P_update_status. }
      intros [[[id st] t] |]; apply ret_keeps. }
    specialize (Hk w Hw). cbv zeta in *.
    by destruct (if bool_decide _ then _ else _) as [[x | r] w'].
  - unfold get_admin_quotes, guarded.
    destruct (Auth.requireAdmin _ _ _); [done |].
    unfold list_handler, try_catch.
    match goal with |- context [let (_, _) := ?m w in _] =>
      assert (keeps P m) as Hk
    end.
    { apply bind_keeps; [| intros; apply ret_keeps].
      apply query_keeps. intros d Hd. unfold select_summaries.
      by case_bool_decide. }
    specialize (Hk w Hw). by destruct (bind _ _ w) as [[x | r] w'].
  - unfold get_admin_file, guarded.
    destruct (Auth.requireAdminAllowQuery _ _ _); [done |].
    unfold file_handler, try_catch.
    match goal with |- context [let (_, _) := ?m w in _] =>
      assert (keeps P m) as Hk
    end.
    { apply bind_keeps.
      { apply query_keeps. intros d Hd.
        by rewrite Invariants.select_file_reads. }
      intros [f |]; [| apply ret_keeps]. intros w0 Hw0. by case_decide. }
    specialize (Hk w Hw). by destruct (bind _ _ w) as [[x | r] w'].
  - unfold Details.get_admin_quote.
    destruct (Auth.requireAdmin _ _ _); [done |].
    unfold Details.details_handler.
    match goal with |- context [let (_, _) := ?m w in _] =>
      assert (keeps P m) as Hk
    end.
    { apply bind_keeps.
      { apply query_keeps. intros d Hd.
        by rewrite Invariants.select_quote_reads. }
      intros [q |]; [| apply ret_keeps].
      apply bind_keeps; [apply query_keeps; by intros d Hd |].
      intros; apply ret_keeps. }
    specialize (Hk w Hw). by destruct (bind _ _ w) as [[x | r] w'].
  - unfold post_auth_login, try_catch.
    destruct (LoginSchema_parse _) as [[em pw] |]; [| done].
    destruct (Auth.login _ _ _ _); [case_decide |]; done.
Qed.

End Keeps.
End InvariantsMore.

(** ** The constraints of the schema *)

Module SchemaInvariants.
Import Store Server Props Props2.

Lemma status_ok_insert_quote v d : status_ok d → status_ok (insert_quote v d).2.
Proof.
  intros Hd. unfold insert_quote. destruct (_ && _); [done |]. simpl.
  destruct (quotes d !! (quotes_id_seq d + 1)) eqn:E; simpl; [done |].
  intros id q Hq. simpl in Hq.
  apply lookup_insert_Some in Hq as [[_ <-] | [_ Hq]]; [| by eapply Hd].
  simpl. set_solver.
Qed.

Lemma status_ok_insert_file q o m z p d :
  status_ok d → status_ok (insert_file q o m z p d).2.
Proof.
  intros Hd. unfold insert_file. simpl.
  destruct (files d !! _); [done |]. by destruct (quotes d !! q).
Qed.

Lemma status_ok_update_status s id d :
  status_ok d → status_ok (update_status s id d).2.
Proof.
  intros Hd. unfold update_status. case_bool_decide; [| done].
  destruct (quotes d !! id) as [q |] eqn:E; [| done].
  case_bool_decide; [| done]. simpl. intros id' q' Hq'. simpl in Hq'.
  apply lookup_insert_Some in Hq' as [[_ <-] | [_ Hq']]; [done | by eapply Hd].
Qed.

Lemma fk_ok_insert_quote v d : fk_ok d → fk_ok (insert_quote v d).2.
Proof.
  intros Hd. unfold insert_quote. destruct (_ && _); [done |]. simpl.
  destruct (quotes d !! (quotes_id_seq d + 1)) eqn:E; simpl; [done |].
  intros id f Hf. simpl in *. rewrite lookup_insert_is_Some. right.
  split; [| by eapply Hd]. intros Heq. specialize (Hd id f Hf).
  rewrite <- Heq, E in Hd. by destruct Hd.
Qed.

Lemma fk_ok_insert_file q o m z p d :
  fk_ok d → fk_ok (insert_file q o m z p d).2.
Proof.
  intros Hd. unfold insert_file. simpl.
  destruct (files d !! _) eqn:E; [done |].
  destruct (quotes d !! q) eqn:Eq; [| done]. simpl.
  intros id f Hf. simpl in *.
  apply lookup_insert_Some in Hf as [[_ <-] | [_ Hf]]; [| by eapply Hd].
  simpl. by rewrite Eq.
Qed.

Lemma fk_ok_update_status s id d : fk_ok d → fk_ok (update_status s id d).2.
Proof.
  intros Hd. unfold update_status. case_bool_decide; [| done].
  destruct (quotes d !! id) as [q |] eqn:E; [| done].
  case_bool_decide; [| done]. simpl. intros id' f Hf. simpl in *.
  rewrite lookup_insert_is_Some'. right. by eapply Hd.
Qed.

(** The clock moving on keeps every timestamp in the past. *)
Lemma times_ok_tick d : times_ok d → times_ok (tick d).
Proof.
  intros Hd id q Hq. simpl in *. destruct (Hd id q Hq). lia.
Qed.

Lemma times_ok_insert_quote v d : times_ok d → times_ok (insert_quote v d).2.
Proof.
  intros Hd. unfold insert_quote. destruct (_ && _); [done |]. simpl.
  destruct (quotes d !! (quotes_id_seq d + 1)) eqn:E; simpl.
  { by apply (times_ok_tick d). }
  intros id q Hq. simpl in Hq.
  apply lookup_insert_Some in Hq as [[_ <-] | [_ Hq]].
  - simpl. lia.
  - by apply (times_ok_tick d Hd id).
Qed.

Lemma times_ok_insert_file q o m z p d :
  times_ok d → times_ok (insert_file q o m z p d).2.
Proof.
  intros Hd. unfold insert_file. simpl.
  destruct (files d !! _); [by apply (times_ok_tick d) |].
  destruct (quotes d !! q); by apply (times_ok_tick d).
Qed.

Lemma times_ok_update_status s id d :
  times_ok d → times_ok (update_status s id d).2.
Proof.
  intros Hd. unfold update_status. case_bool_decide; [| done].
  destruct (quotes d !! id) as [q |] eqn:E; [| done].
  case_bool_decide; [| done]. simpl. intros id' q' Hq'. simpl in Hq'.
  apply lookup_insert_Some in Hq' as [[_ <-] | [_ Hq']].
  - simpl. destruct (Hd id q E). lia.
  - by apply (times_ok_tick d Hd id').
Qed.

Section WithLibs.
Context `{Libs}.

(** X10: the status of every request is one of the six legal values, and
    no route changes that: a new request starts as ["pending"], and a
    status update only ever writes a value it has checked against the
    list. *)
Theorem status_always_legal e req w :
  status_ok (store w) →
  status_ok (store (post_quotes_multipart e req w).2)
  ∧ status_ok (store (patch_admin_quote_status e req w).2)
  ∧ status_ok (store (get_admin_quotes e req w).2)
  ∧ status_ok (store (get_admin_file e req w).2)
  ∧ status_ok (store (Details.get_admin_quote e req w).2)
  ∧ status_ok (store (post_auth_login e req w).2).
Proof.
  apply (InvariantsMore.routes_keep status_ok); try done.
  - apply status_ok_insert_quote.
  - apply status_ok_insert_file.
  - apply status_ok_update_status.
Qed.

(** X11: every attachment row refers to a request that exists, and no
    route changes that: attachments are only linked to the request that
    was just inserted, and no route removes a request. *)
Theorem attachments_always_owned e req w :
  fk_ok (store w) →
  fk_ok (store (post_quotes_multipart e req w).2)
  ∧ fk_ok (store (patch_admin_quote_status e req w).2)
  ∧ fk_ok (store (get_admin_quotes e req w).2)
  ∧ fk_ok (store (get_admin_file e req w).2)
  ∧ fk_ok (store (Details.get_admin_quote e req w).2)
  ∧ fk_ok (store (post_auth_login e req w).2).
Proof.
  apply (InvariantsMore.routes_keep fk_ok); try done.
  - apply fk_ok_insert_quote.
  - apply fk_ok_insert_file.
  - apply fk_ok_update_status.
Qed.

(** X12: when no request carries a timestamp later than the current time
    of the store, every route keeps the creation time of each request at
    or before its update time, and both at or before the current time: a
    submission sets both to the current time, a status update moves only
    the update time, to the current time. *)
Theorem created_before_updated e req w :
  times_ok (store w) →
  times_ok (store (post_quotes_multipart e req w).2)
  ∧ times_ok (store (patch_admin_quote_status e req w).2)
  ∧ times_ok (store (get_admin_quotes e req w).2)
  ∧ times_ok (store (get_admin_file e req w).2)
  ∧ times_ok (store (Details.get_admin_quote e req w).2)
  ∧ times_ok (store (post_auth_login e req w).2).
Proof.
  apply (InvariantsMore.routes_keep times_ok); try done.
  - apply times_ok_insert_quote.
  - apply times_ok_insert_file.
  - apply times_ok_update_status.
Qed.

End WithLibs.
End SchemaInvariants.

(** ** More on listing *)

Module ListMore.
Import Store Server Props Props2.






#[local] Instance newer_first_trans : Transitive newer_first.
Proof. unfold newer_first. intros x y z ? ?. lia. Qed.

#[local] Instance newer_first_total : Total newer_first.
Proof. unfold newer_first. intros x y. lia. Qed.



Lemma is_ws_lower c : JS.is_ws (JS.lower_char c) = JS.is_ws c.
Proof. by destruct c as [[] [] [] [] [] [] [] []]. Qed.

Lemma trimStart_lower s :
  JS.trimStart (JS.toLowerCase s) = JS.toLowerCase (JS.trimStart s).
Proof.
  induction s as [| c s IH]; [done |]. simpl. rewrite is_ws_lower.
  by destruct (JS.is_ws c).
Qed.

Lemma trimEnd_lower s :
  JS.trimEnd (JS.toLowerCase s) = JS.toLowerCase (JS.trimEnd s).
Proof.
  induction s as [| c s IH]; [done |]. simpl. rewrite IH, is_ws_lower.
  destruct (JS.trimEnd s); simpl; [by destruct (JS.is_ws c) | done].
Qed.

Lemma trim_lower s : JS.trim (JS.toLowerCase s) = JS.toLowerCase (JS.trim s).
Proof. unfold JS.trim. by rewrite trimStart_lower, trimEnd_lower. Qed.

Lemma lower_char_idemp c : JS.lower_char (JS.lower_char c) = JS.lower_char c.
Proof. by destruct c as [[] [] [] [] [] [] [] []]. Qed.

Lemma toLowerCase_idemp s :
  JS.toLowerCase (JS.toLowerCase s) = JS.toLowerCase s.
Proof.
  induction s as [| c s IH]; [done |]. simpl. by rewrite lower_char_idemp, IH.
Qed.

Lemma trim_all_ws s : all_ws s → JS.trim s = "".
Proof.
  unfold all_ws, JS.trim. induction s as [| c s IH]; [done |]. simpl.
  intros Hs. apply andb_true_iff in Hs as [Hc Hs]. rewrite Hc. by apply IH.
Qed.

Lemma list_q_with_query req v :
  list_q (with_query req "q" v)
  = JS.toLowerCase (JS.trim (JS.nullish_toString v)).
Proof. unfold list_q. by rewrite ListSpec.with_query_same. Qed.

Lemma list_where_q_ext req v1 v2 :
  JS.toLowerCase (JS.trim (JS.nullish_toString v1))
  = JS.toLowerCase (JS.trim (JS.nullish_toString v2)) →
  list_where (with_query req "q" v1) = list_where (with_query req "q" v2).
Proof.
  intros Hq. unfold list_where. rewrite !list_q_with_query, Hq.
  unfold list_status. by rewrite !ListSpec.with_query_other.
Qed.

Section WithLibs.
Context `{Libs}.




(** X15: the text query of a list call is trimmed and compared without
    regard to case: a query of white space only is no filter at all, and
    two queries that differ only in the case of their letters get the
    same answer. *)
Theorem list_query_normalised e req w s1 s2 :
  (all_ws s1 →
   get_admin_quotes e (with_query req "q" (Some (JS.Str s1))) w
   = get_admin_quotes e (with_query req "q" None) w)
  ∧ (JS.toLowerCase s1 = JS.toLowerCase s2 →
     get_admin_quotes e (with_query req "q" (Some (JS.Str s1))) w
     = get_admin_quotes e (with_query req "q" (Some (JS.Str s2))) w).
Proof.
  split.
  - intros Hws. apply ListSpec.get_admin_quotes_ext; [done | | |].
    + apply list_where_q_ext. simpl. by rewrite (trim_all_ws _ Hws).
    + unfold list_limit. by rewrite !ListSpec.with_query_other.
    + unfold list_offset. by rewrite !ListSpec.with_query_other.
  - intros Hcase. apply ListSpec.get_admin_quotes_ext; [done | | |].
    + apply list_where_q_ext. simpl. by rewrite <- !trim_lower, Hcase.
    + unfold list_limit. by rewrite !ListSpec.with_query_other.
    + unfold list_offset. by rewrite !ListSpec.with_query_other.
Qed.

End WithLibs.
End ListMore.

(** ** Downloads and details *)

Module FileMore.
Import Store Server Props Props2.

Section WithLibs.
Context `{Libs}.


(** X16: a download never streams anything but the file registered under
    the requested attachment id: whenever the answer is a stream, the
    request has passed the lenient guard, a metadata row exists for the
    id, the path streamed is the upload directory followed by that row's
    stored name, and that file exists on disk. *)
Theorem download_only_registered e req w ct dsp path :
  res_body (get_admin_file e req w).1 = BStream ct dsp path →
  (∃ user, Auth.requireAdminAllowQuery e (node_now w) req = Auth.Next user)
  ∧ ∃ f, files (store w) !! params_id req = Some f
         ∧ path = UPLOAD_DIR e +:+ "/" +:+ f_path f
         ∧ path ∈ disk w.
Proof.
  unfold get_admin_file, guarded.
  destruct (Auth.requireAdminAllowQuery e (node_now w) req) as [r | user] eqn:Hg.
  { unfold Auth.requireAdminAllowQuery in Hg. cbv zeta in Hg.
    destruct (Auth.verifyAdmin _ _ _); [done |]. by injection Hg as <-. }
  intros Hr. split; [by eauto |]. revert Hr.
  unfold file_handler, try_catch, bind, query, select_file.
  destruct (pg_left (store w)) as [[| n] |]; simpl; [done | |].
  - case_bool_decide; simpl; [| done].
    destruct (files (store w) !! params_id req) as [f |]; simpl; [| done].
    case_decide; simpl; [| done]. intros [= _ _ <-]. eauto.
  - case_bool_decide; simpl; [| done].
    destruct (files (store w) !! params_id req) as [f |]; simpl; [| done].
    case_decide; simpl; [| done]. intros [= _ _ <-]. eauto.
Qed.


End WithLibs.
End FileMore.

Module DetailsMore.
Import Store Server Props Props2 Details.

Lemma select_files_of_spec quote_id d fds d' fd :
  select_files_of quote_id d = (Some fds, d') →
  fd ∈ fds
  ↔ ∃ k f, files d !! k = Some f ∧ f_quote_id f = quote_id
           ∧ fd = to_descr (k, f).
Proof.
  unfold select_files_of. intros [= <- _].
  rewrite list_elem_of_fmap. split.
  - intros ([k f] & -> & Hin). apply list_elem_of_filter in Hin as [Hq Hin].
    apply elem_of_map_to_list in Hin. eauto.
  - intros (k & f & Hf & Hq & ->). exists (k, f). split; [done |].
    apply list_elem_of_filter. split; [done |]. by apply elem_of_map_to_list.
Qed.

Section WithLibs.
Context `{Libs}.

Lemma get_admin_quote_found e req w user q :
  Auth.requireAdmin e (node_now w) req = Auth.Next user →
  pg_left (store w) = None →
  int4 (params_id req) →
  quotes (store w) !! params_id req = Some q →
  ∃ fds,
    get_admin_quote e req w = (Found (params_id req) q fds, w)
    ∧ select_files_of (params_id req) (store w) = (Some fds, store w).
Proof.
  intros Hg Hup Hid Hq. unfold get_admin_quote. rewrite Hg.
  unfold details_handler, bind.
  rewrite (SubmitSpec.query_stays_up _ _ Hup). unfold select_quote.
  rewrite bool_decide_eq_true_2 by done. simpl. rewrite Hq.
  rewrite SubmitSpec.query_stays_up by done. simpl.
  eexists. split; [| done]. by destruct w.
Qed.

(** X18: the details route, asked for an id that is a 32-bit integer (the
    type of the key), answers 404 [Not found] when no request has that
    id; for an existing request it returns the stored row together with
    one descriptor (id, original name, media type, size) for each
    attachment row of that request and for no other row.  Asked for an
    id outside that type, it answers 500 [Server error].  It changes
    nothing. *)
Theorem details_of_request e req w user :
  Auth.requireAdmin e (node_now w) req = Auth.Next user →
  pg_left (store w) = None →
  (get_admin_quote e req w).2 = w
  ∧ (¬ int4 (params_id req) →
     (get_admin_quote e req w).1
     = Failed (Response 500 (BError "Server error")))
  ∧ (int4 (params_id req) →
     match quotes (store w) !! params_id req with
     | None =>
         (get_admin_quote e req w).1
         = Failed (Response 404 (BError "Not found"))
     | Some q =>
         ∃ fds,
           (get_admin_quote e req w).1 = Found (params_id req) q fds
           ∧ ∀ fd, fd ∈ fds
                   ↔ ∃ k f, files (store w) !! k = Some f
                            ∧ f_quote_id f = params_id req
                            ∧ fd = FileDescr k (f_original_name f)
                                             (f_mime_type f) (f_size f)
     end).
Proof.
  intros Hg Hup.
  destruct (decide (int4 (params_id req))) as [Hid | Hid].
  - destruct (quotes (store w) !! params_id req) as [q |] eqn:Hq.
    + destruct (get_admin_quote_found e req w user q Hg Hup Hid Hq)
        as (fds & -> & Hsel).
      split_and!; [done | done |]. intros _. exists fds. split; [done |].
      intros fd. apply (select_files_of_spec _ _ _ _ fd Hsel).
    + unfold get_admin_quote. rewrite Hg. unfold details_handler, bind.
      rewrite (SubmitSpec.query_stays_up _ _ Hup). unfold select_quote.
      rewrite bool_decide_eq_true_2 by done. simpl. rewrite Hq. simpl.
      split_and!; [by destruct w | done | done].
  - unfold get_admin_quote. rewrite Hg. unfold details_handler, bind.
    rewrite (SubmitSpec.query_stays_up _ _ Hup). unfold select_quote.
    rewrite bool_decide_eq_false_2 by done. simpl.
    split_and!; [by destruct w | done | done].
Qed.


End WithLibs.
End DetailsMore.

(** ** CORS *)

Module CorsSpec.
Import Props2.

Lemma trimStart_starts_clean s : starts_clean (JS.trimStart s).
Proof.
  induction s as [| c s IH]; [done |]. simpl.
  by destruct (JS.is_ws c) eqn:E.
Qed.

Lemma trimStart_clean s : starts_clean s → JS.trimStart s = s.
Proof. destruct s as [| c s]; [done |]. simpl. by intros ->. Qed.

Lemma trimEnd_starts_clean s : starts_clean s → starts_clean (JS.trimEnd s).
Proof.
  destruct s as [| c s]; [done |]. simpl. intros Hc.
  destruct (JS.trimEnd s); [by rewrite Hc | done].
Qed.

Lemma trimEnd_idemp s : JS.trimEnd (JS.trimEnd s) = JS.trimEnd s.
Proof.
  induction s as [| c s IH]; [done |]. simpl.
  destruct (JS.trimEnd s) as [| d t] eqn:E.
  - destruct (JS.is_ws c) eqn:Hc; [done |]. simpl. by rewrite Hc.
  - simpl in *. by rewrite IH.
Qed.

Lemma trim_idemp s : JS.trim (JS.trim s) = JS.trim s.
Proof.
  unfold JS.trim.
  rewrite (trimStart_clean (JS.trimEnd (JS.trimStart s))).
  - apply trimEnd_idemp.
  - apply trimEnd_starts_clean, trimStart_starts_clean.
Qed.

Lemma forallb_trimStart f s :
  JS.forallb_string f s = true → JS.forallb_string f (JS.trimStart s) = true.
Proof.
  induction s as [| c s IH]; [done |]. simpl. intros Hs.
  destruct (JS.is_ws c); [| done].
  apply andb_true_iff in Hs as [_ Hs]. by apply IH.
Qed.

Lemma forallb_trimEnd f s :
  JS.forallb_string f s = true → JS.forallb_string f (JS.trimEnd s) = true.
Proof.
  induction s as [| c s IH]; [done |]. simpl. intros Hs.
  apply andb_true_iff in Hs as [Hc Hs]. specialize (IH Hs).
  destruct (JS.trimEnd s); simpl in *.
  - destruct (JS.is_ws c); [done |]. simpl. by rewrite Hc.
  - by rewrite Hc, IH.
Qed.

Lemma split_comma_free s x :
  x ∈ Cors.split_comma s →
  JS.forallb_string (λ c, negb (Ascii.eqb c ",")) x = true.
Proof.
  revert x. induction s as [| c s IH]; intros x; simpl.
  - by intros ->%list_elem_of_singleton.
  - destruct (Ascii.eqb c ",") eqn:Hc.
    + intros [-> | Hx]%elem_of_cons; [done | by apply IH].
    + destruct (Cors.split_comma s) as [| h t].
      * intros ->%list_elem_of_singleton. simpl. by rewrite Hc.
      * intros [-> | Hx]%elem_of_cons.
        -- simpl. rewrite Hc. simpl. apply IH. left.
        -- apply IH. by right.
Qed.

Lemma split_comma_single s :
  JS.forallb_string (λ c, negb (Ascii.eqb c ",")) s = true →
  Cors.split_comma s = [s].
Proof.
  induction s as [| c s IH]; [done |]. simpl. intros Hs.
  apply andb_true_iff in Hs as [Hc Hs]. apply negb_true_iff in Hc.
  by rewrite Hc, (IH Hs).
Qed.

Lemma split_comma_cons s rest :
  JS.forallb_string (λ c, negb (Ascii.eqb c ",")) s = true →
  Cors.split_comma (s +:+ "," +:+ rest) = s :: Cors.split_comma rest.
Proof.
  induction s as [| c s IH]; [done |]. intros Hs. simpl in Hs.
  apply andb_true_iff in Hs as [Hc Hs]. apply negb_true_iff in Hc.
  change (String c s +:+ "," +:+ rest) with (String c (s +:+ "," +:+ rest)).
  simpl. by rewrite Hc, (IH Hs).
Qed.

Lemma split_join l :
  l ≠ [] →
  Forall (λ s, JS.forallb_string (λ c, negb (Ascii.eqb c ",")) s = true) l →
  Cors.split_comma (Cors.join_comma l) = l.
Proof.
  induction l as [| s l IH]; [done |]. intros _ Hall.
  apply Forall_cons in Hall as [Hs Hall].
  destruct l as [| s' l]; [by apply split_comma_single |].
  change (Cors.join_comma (s :: s' :: l))
    with (s +:+ "," +:+ Cors.join_comma (s' :: l)).
  rewrite (split_comma_cons _ _ Hs). f_equal. by apply IH.
Qed.

Lemma allowed_clean cfg o : o ∈ Cors.allowed cfg → clean_origin o.
Proof.
  unfold Cors.allowed. intros Ho.
  apply list_elem_of_filter in Ho as [Hne Ho].
  apply list_elem_of_fmap in Ho as (x & -> & Hx).
  split_and!; [done | apply trim_idemp |].
  unfold JS.trim. apply forallb_trimEnd, forallb_trimStart.
  by eapply split_comma_free.
Qed.

(** X20: the CORS check lets a request through when it has no Origin
    header (or an empty one) or when the origin is on the allow-list, by
    an exact comparison, and blocks it otherwise with the message [CORS
    blocked: ] followed by the origin.  Every entry of the allow-list is
    non-empty, free of commas and of surrounding white space, so an
    origin written with white space around it is blocked under every
    configuration. *)
Theorem origin_check cfg o :
  Cors.origin cfg None = Cors.Allow
  ∧ Cors.origin cfg (Some "") = Cors.Allow
  ∧ (o ≠ "" →
     (o ∈ Cors.allowed cfg → Cors.origin cfg (Some o) = Cors.Allow)
     ∧ (o ∉ Cors.allowed cfg →
        Cors.origin cfg (Some o) = Cors.Block ("CORS blocked: " +:+ o))
     ∧ (JS.trim o ≠ o →
        Cors.origin cfg (Some o) = Cors.Block ("CORS blocked: " +:+ o)))
  ∧ (∀ x, x ∈ Cors.allowed cfg → clean_origin x).
Proof.
  split_and!; [done | done | | intros x; apply allowed_clean].
  intros Hne. unfold Cors.origin. rewrite decide_False by done.
  split_and!.
  - intros Hin. by rewrite bool_decide_eq_true_2.
  - intros Hout. by rewrite bool_decide_eq_false_2.
  - intros Htrim. rewrite bool_decide_eq_false_2; [done |].
    intros Hin. apply allowed_clean in Hin as (_ & Ht & _). done.
Qed.

(** X21: the allow-list is what the configuration spells out: setting
    CORS_ORIGINS to a non-empty list of origins joined by commas, each
    non-empty and free of commas and of surrounding white space, allows
    exactly those origins, in that order; with CORS_ORIGINS unset or
    empty the list is the four local development origins. *)
Theorem allowed_round_trip l :
  l ≠ [] →
  Forall clean_origin l →
  Cors.allowed (Some (Cors.join_comma l)) = l
  ∧ Cors.allowed None = Cors.defaultOrigins
  ∧ Cors.allowed (Some "") = Cors.defaultOrigins.
Proof.
  intros Hne Hall. split; [| by vm_compute].
  unfold Cors.allowed.
  assert (Cors.join_comma l ≠ "") as Hj.
  { destruct l as [| s l]; [done |].
    apply Forall_cons in Hall as [(Hs & _) _].
    destruct l; simpl; [done |]. by destruct s. }
  rewrite (JSFacts.or_default_nonempty _ _ Hj).
  rewrite split_join; [| done |].
  - clear Hne Hj. induction l as [| s l IH]; [done |].
    apply Forall_cons in Hall as [(Hs & Ht & _) Hall].
    rewrite fmap_cons, Ht, filter_cons_True by done. f_equal. by apply IH.
  - eapply Forall_impl; [done |]. by intros s (_ & _ & ?).
Qed.

Lemma origin_check_witness :
  Cors.origin None (Some "http://localhost:5500") = Cors.Allow
  ∧ Cors.origin None (Some "http://localhost:5500 ")
    = Cors.Block "CORS blocked: http://localhost:5500 ".
Proof.
  destruct (origin_check None "http://localhost:5500") as (_ & _ & Ha & _).
  destruct (origin_check None "http://localhost:5500 ") as (_ & _ & Hb & _).
  split.
  - apply Ha; [discriminate |]. apply (bool_decide_unpack _). by vm_compute.
  - apply Hb; [discriminate |]. vm_compute. discriminate.
Defined.

Lemma allowed_round_trip_witness :
  Cors.allowed (Some "https://smile.tn,https://admin.smile.tn")
  = ["https://smile.tn"; "https://admin.smile.tn"].
Proof.
  refine (proj1 (allowed_round_trip
                   ["https://smile.tn"; "https://admin.smile.tn"] _ _)).
  - discriminate.
  - repeat constructor; try discriminate; by vm_compute.
Defined.

End CorsSpec.

(** ** The admin bootstrap script *)

Module BootstrapSpec.

(** X22: the bootstrap script exits with 1 and writes nothing when the
    admin e-mail or password is unset or empty, and also when its INSERT
    fails (the store cannot be reached or has no table [admin_users]), and
    in no other case; otherwise it exits with 0 and the admin e-mail has
    a row.  It never overwrites a row: an existing admin keeps the stored
    hash, and running the script again, even with another password hash,
    changes nothing more. *)
Theorem create_admin_idempotent e h1 h2 (t : option (gmap string string)) :
  let out := Bootstrap.create_admin e h1 t in
  Bootstrap.create_admin e h2 out.2 = (out.1, out.2)
  ∧ (out.1 = 0 ∨ out.1 = 1)
  ∧ (out.1 = 1
     ↔ Auth.ADMIN_EMAIL e = "" ∨ Auth.ADMIN_PASSWORD e = "" ∨ t = None)
  ∧ (out.1 = 1 → out.2 = t)
  ∧ (∀ rows, t = Some rows →
       ∃ rows', out.2 = Some rows'
                ∧ (∀ k h, rows !! k = Some h → rows' !! k = Some h)
                ∧ (out.1 = 0 → is_Some (rows' !! Auth.ADMIN_EMAIL e))).
Proof.
  assert (∀ s, or_default (Some s) "" = s) as Hor.
  { intros s. unfold or_default. by case_decide. }
  unfold Bootstrap.create_admin, Auth.ADMIN_EMAIL, Auth.ADMIN_PASSWORD.
  destruct (env_ADMIN_EMAIL e) as [email |]; last first.
  { simpl. split_and!; [done | by right | split; [by left | done] | done |].
    intros rows ->. by exists rows. }
  destruct (env_ADMIN_PASSWORD e) as [pass |]; last first.
  { simpl. split_and!;
      [done | by right | split; [right; by left | done] | done |].
    intros rows ->. by exists rows. }
  rewrite !Hor.
  destruct (decide (email = "" ∨ pass = "")) as [Hempty | Hset]; simpl.
  { split_and!; [done | by right | split; [tauto | done] | done |].
    intros rows ->. by exists rows. }
  destruct t as [rows |]; simpl; last first.
  { split_and!; [done | by right | split; [tauto | done] | done | done]. }
  destruct (rows !! email) as [h |] eqn:Ht; simpl.
  - rewrite Ht. split_and!; [done | by left | | done |].
    + split; [done |]. intros [? | [? | ?]]; [tauto | tauto | done].
    + intros ? [= <-]. exists rows. split_and!; [done | done |].
      intros _. by rewrite Ht.
  - rewrite lookup_insert_eq. split_and!; [done | by left | | done |].
    + split; [done |]. intros [? | [? | ?]]; [tauto | tauto | done].
    + intros ? [= <-]. eexists. split_and!; [done | |].
      * intros k h Hk. rewrite lookup_insert_ne; [done |]. intros <-.
        congruence.
      * intros _. by rewrite lookup_insert_eq.
Qed.

End BootstrapSpec.

(** ** Routes that only read *)

Module ReadOnly.
Import Store Server Props Props2.

Lemma query_reads {A} (s : stmt A) :
  (∀ d, (s d).2 = d) → leaves data (query s).
Proof.
  intros Hs w. unfold query.
  destruct (pg_left (store w)) as [[| n] |]; [done | |].
  - specialize (Hs (set_pg_left (store w) (Nat.pred <$> Some (S n)))).
    destruct (s _) as [[a |] d]; simpl in *; by subst d.
  - specialize (Hs (set_pg_left (store w) (Nat.pred <$> None))).
    destruct (s _) as [[a |] d]; simpl in *; by subst d.
Qed.

Lemma select_summaries_reads where_ limit offset d :
  (select_summaries where_ limit offset d).2 = d.
Proof. unfold select_summaries. by case_bool_decide. Qed.

Section WithLibs.
Context `{Libs}.

(** X23: listing, details, download and login never change a row of
    either table nor the content of the upload directory, whoever calls
    them and whatever they answer. *)
Theorem reading_routes_change_nothing e req w :
  data (get_admin_quotes e req w).2 = data w
  ∧ data (Details.get_admin_quote e req w).2 = data w
  ∧ data (get_admin_file e req w).2 = data w
  ∧ data (post_auth_login e req w).2 = data w.
Proof.
  split_and!.
  - unfold get_admin_quotes, guarded.
    destruct (Auth.requireAdmin _ _ _); [done |].
    unfold list_handler, try_catch.
    match goal with |- context [let (_, _) := ?m w in _] =>
      assert (leaves data m) as Hl
    end.
    { apply SubmitMore.bind_leaves; [| done].
      apply query_reads. intros d. apply select_summaries_reads. }
    specialize (Hl w). by destruct (bind _ _ w) as [[x | r] w'].
  - unfold Details.get_admin_quote.
    destruct (Auth.requireAdmin _ _ _); [done |].
    unfold Details.details_handler.
    match goal with |- context [let (_, _) := ?m w in _] =>
      assert (leaves data m) as Hl
    end.
    { apply SubmitMore.bind_leaves.
      { apply query_reads. intros d. apply Invariants.select_quote_reads. }
      intros [q |]; [| done].
      apply SubmitMore.bind_leaves; [by apply query_reads | done]. }
    specialize (Hl w). by destruct (bind _ _ w) as [[x | r] w'].
  - unfold get_admin_file, guarded.
    destruct (Auth.requireAdminAllowQuery _ _ _); [done |].
    unfold file_handler, try_catch.
    match goal with |- context [let (_, _) := ?m w in _] =>
      assert (leaves data m) as Hl
    end.
    { apply SubmitMore.bind_leaves.
      { apply query_reads. intros d. apply Invariants.select_file_reads. }
      intros [f |]; [| done]. intros w0. by case_decide. }
    specialize (Hl w). by destruct (bind _ _ w) as [[x | r] w'].
  - unfold post_auth_login, try_catch.
    destruct (LoginSchema_parse _) as [[em pw] |]; [| done].
    destruct (Auth.login _ _ _ _); [case_decide |]; done.
Qed.

End WithLibs.
End ReadOnly.

(** ** Failures of the store, tokens that do not verify, stored fields *)

Module Outcomes.
Import Store Server Props Props2.

Lemma query_down {A} (s : stmt A) w :
  pg_left (store w) = Some O → query s w = (inl PgError, w).
Proof. intros Hd. unfold query. by rewrite Hd. Qed.

Section WithLibs.
Context `{Libs}.


(** X24: while the store does not answer, every route that needs it
    answers 500 [Server error] to a caller who passes its guard: the
    list, the details, a status update to a legal value, a download, and
    a submission that passed the limiter, the upload and the schema.  No
    row is written in any of these cases. *)
Theorem store_down_answers_500 e req w :
  pg_left (store w) = Some O →
  (∀ user, Auth.requireAdmin e (node_now w) req = Auth.Next user →
     get_admin_quotes e req w = (Response 500 (BError "Server error"), w)
     ∧ Details.get_admin_quote e req w
       = (Details.Failed (Response 500 (BError "Server error")), w)
     ∧ (JS.or_empty_toString (body req !! "status") ∈ allowedStatuses →
        patch_admin_quote_status e req w
        = (Response 500 (BError "Server error"), w)))
  ∧ (∀ user, Auth.requireAdminAllowQuery e (node_now w) req = Auth.Next user →
     get_admin_file e req w = (Response 500 (BError "Server error"), w))
  ∧ (∀ fs, within_rate req w →
           upload_array "files" upload_limits 0 (parts req) = inr fs →
           is_Some (QuoteSchema_parse (body req)) →
           (post_quotes_multipart e req w).1
           = Response 500 (BError "Server error")
           ∧ store (post_quotes_multipart e req w).2 = store w).
Proof.
  intros Hd. split_and!.
  - intros user Hg. split_and!.
    + unfold get_admin_quotes, guarded. rewrite Hg.
      unfold list_handler, try_catch, bind. by rewrite query_down.
    + unfold Details.get_admin_quote. rewrite Hg.
      unfold Details.details_handler, bind. by rewrite query_down.
    + intros Hs. unfold patch_admin_quote_status, guarded. rewrite Hg.
      unfold status_handler, try_catch, bind. cbv zeta.
      rewrite bool_decide_eq_true_2 by done. by rewrite query_down.
  - intros user Hg. unfold get_admin_file, guarded. rewrite Hg.
    unfold file_handler, try_catch, bind. by rewrite query_down.
  - intros fs Hrate Hup [data Hparse].
    unfold post_quotes_multipart, limitQuotes.
    rewrite decide_False by (unfold within_rate in Hrate; lia).
    rewrite Hup. unfold submit_handler, try_catch, submit_body, bind.
    rewrite Hparse. unfold ret at 1. unfold hasUrgencyColumn. simpl.
    destruct (HAS_URGENCY w) as [b |].
    + by rewrite !query_down.
    + by rewrite !query_down.
Qed.

(** X25: a token that the library does not verify (malformed, expired,
    signed with another secret) and a token that verifies but whose role
    claim is not ["admin"] are both refused with 401 by both guards,
    whether the token comes in the Authorization header or, for the
    lenient guard, in the query string. *)
Theorem invalid_token_rejected e now req t :
  jwt_verify t (Auth.JWT_SECRET e) now = None
  ∨ (∃ u, jwt_verify t (Auth.JWT_SECRET e) now = Some u
          ∧ jwt_role u ≠ Some "admin") →
  (authorization req = Some ("Bearer " +:+ t) → bearer_token t →
   Auth.requireAdmin e now req
   = Auth.Respond (Response 401 (BError "Unauthorized"))
   ∧ Auth.requireAdminAllowQuery e now req
     = Auth.Respond (Response 401 (BError "Unauthorized")))
  ∧ (authorization req = None →
     req_query req !! "token" = Some (JS.Str t) →
     Auth.requireAdmin e now req
     = Auth.Respond (Response 401 (BError "Unauthorized"))
     ∧ Auth.requireAdminAllowQuery e now req
       = Auth.Respond (Response 401 (BError "Unauthorized"))).
Proof.
  intros Hbad.
  assert (Auth.verifyAdmin e now t = None) as Hv.
  { unfold Auth.verifyAdmin. case_decide; [done |].
    destruct Hbad as [-> | (u & -> & Hr)]; [done |]. by rewrite decide_False. }
  split.
  - intros Hh Hb. unfold Auth.requireAdmin, Auth.requireAdminAllowQuery.
    cbv zeta. rewrite (AuthSpec.extractBearer_header _ _ Hh Hb), Hv.
    split; [done |].
    destruct (JS.is_string _); [| by rewrite Hv].
    rewrite decide_False by apply Hb. by rewrite Hv.
  - intros Hh Hq. unfold Auth.requireAdmin, Auth.requireAdminAllowQuery.
    cbv zeta. rewrite (AuthSpec.extractBearer_absent _ Hh), Hq. simpl.
    by rewrite Hv.
Qed.

(** X26: beyond the clamping, the limit and the offset of a list call
    are the Numbers that [parseInt] returned: a limit between 1 and 200
    and an offset of 0 or more are used as they are.  For an offset that
    starts with the integer [k], that Number is the double nearest to
    [k]: [k] itself below 2^53, and for instance 9007199254740992 for
    [offset=9007199254740993].  A limit above 200 behaves as [limit=200],
    and a limit or offset that does not start with a number behaves as
    if it had not been sent. *)
Theorem pagination_values e req w v n :
  (JS.parseInt (Some v) = Some n → 1 ≤ n ≤ 200 →
   list_limit (with_query req "limit" (Some v)) = n)
  ∧ (JS.parseInt (Some v) = Some n → 0 ≤ n →
     list_offset (with_query req "offset" (Some v)) = n)
  ∧ (∀ k, JS.integer_prefix (Some v) = Some k → 0 ≤ k →
          list_offset (with_query req "offset" (Some v)) = JS.to_double k
          ∧ (k < 2 ^ 53 →
             list_offset (with_query req "offset" (Some v)) = k))
  ∧ list_offset (with_query req "offset" (Some (JS.Str "9007199254740993")))
    = 9007199254740992
  ∧ (JS.parseInt (Some v) = Some n → 200 < n →
     get_admin_quotes e (with_query req "limit" (Some v)) w
     = get_admin_quotes e (with_query req "limit" (Some (JS.Str "200"))) w)
  ∧ (JS.parseInt (Some v) = None →
     get_admin_quotes e (with_query req "limit" (Some v)) w
     = get_admin_quotes e (with_query req "limit" None) w
     ∧ get_admin_quotes e (with_query req "offset" (Some v)) w
       = get_admin_quotes e (with_query req "offset" None) w).
Proof.
  assert (∀ m, 0 ≤ m →
            JS.parseInt (Some v) = Some m →
            list_offset (with_query req "offset" (Some v)) = m) as Hoff.
  { intros m Hm Hv. unfold list_offset, JS.num_or.
    rewrite ListSpec.with_query_same, Hv. case_decide; lia. }
  split_and!.
  - intros Hv Hn. unfold list_limit, JS.num_or.
    rewrite ListSpec.with_query_same, Hv. rewrite decide_False by lia. lia.
  - intros Hv Hn. by apply Hoff.
  - intros k Hk Hpos.
    assert (list_offset (with_query req "offset" (Some v)) = JS.to_double k)
      as Hd.
    { apply Hoff; [by apply JSFacts.to_double_nonneg |].
      unfold JS.parseInt. by rewrite Hk. }
    split; [done |]. intros Hsafe. rewrite Hd.
    apply JSFacts.to_double_safe. lia.
  - unfold list_offset. rewrite ListSpec.with_query_same. by vm_compute.
  - intros Hv Hn. apply ListSpec.get_admin_quotes_ext;
      [done | by rewrite !ListSpec.list_where_with_query | |].
    + unfold list_limit, JS.num_or.
      rewrite !ListSpec.with_query_same, Hv, ListSpec.parseInt_200.
      repeat case_decide; lia.
    + unfold list_offset. by rewrite !ListSpec.with_query_other.
  - intros Hv. split.
    + apply ListSpec.get_admin_quotes_ext;
        [done | by rewrite !ListSpec.list_where_with_query | |].
      * unfold list_limit. by rewrite !ListSpec.with_query_same, Hv.
      * unfold list_offset. by rewrite !ListSpec.with_query_other.
    + apply ListSpec.get_admin_quotes_ext;
        [done | by rewrite !ListSpec.list_where_with_query | |].
      * unfold list_limit. by rewrite !ListSpec.with_query_other.
      * unfold list_offset. by rewrite !ListSpec.with_query_same, Hv.
Qed.


End WithLibs.
End Outcomes.

(** ** The properties at work on the sample data *)

Module Samples.
Import Store Server Props Props2.


Lemma db0_status_ok : status_ok Demo.db0.
Proof.
  intros id q Hq. simpl in Hq.
  apply lookup_insert_Some in Hq as [[_ <-] | [_ Hq]];
    [| apply lookup_singleton_Some in Hq as [_ <-]];
    apply (bool_decide_unpack _); by vm_compute.
Qed.

Lemma db0_fk_ok : fk_ok Demo.db0.
Proof.
  intros id f Hf. simpl in Hf.
  apply lookup_insert_Some in Hf as [[_ <-] | [_ Hf]];
    [| apply lookup_singleton_Some in Hf as [_ <-]]; by eexists.
Qed.

Lemma db0_times_ok : times_ok Demo.db0.
Proof.
  intros id q Hq. simpl in Hq.
  apply lookup_insert_Some in Hq as [[_ <-] | [_ Hq]];
    [| apply lookup_singleton_Some in Hq as [_ <-]]; simpl; lia.
Qed.

(** A second update of the same request: its update timestamp moves on
    again. *)
Lemma status_update_applies_witness :
  let first := Demo.with_body Demo.admin_req {[ "status" := JS.Str "quoted" ]} in
  let second := Demo.with_body Demo.admin_req {[ "status" := JS.Str "closed" ]} in
  let w1 := (patch_admin_quote_status (H := Demo.libs) Demo.env0 first
               Demo.world0).2 in
  let out := patch_admin_quote_status (H := Demo.libs) Demo.env0 second w1 in
  ∃ q1 q2, quotes (store w1) !! 1 = Some q1
           ∧ quotes (store out.2) !! 1 = Some q2
           ∧ q_status q1 = "quoted"
           ∧ q_status q2 = "closed"
           ∧ q_updated_at Demo.jane < q_updated_at q1
           ∧ q_updated_at q1 < q_updated_at q2
           ∧ out.1 = json (BUpdated 1 "closed" (JS.to_Date (q_updated_at q2))).
Proof.
  intros first second w1 out.
  assert (times_ok (store w1)) as Ht1.
  { apply (InvariantsMore.routes_keep times_ok); try done.
    - apply SchemaInvariants.times_ok_insert_quote.
    - apply SchemaInvariants.times_ok_insert_file.
    - apply SchemaInvariants.times_ok_update_status.
    - exact db0_times_ok. }
  destruct (StatusSpec.status_update_applies (H := Demo.libs) Demo.env0 second
              w1 Demo.admin_claims "closed") as [Hin _].
  - vm_compute. reflexivity.
  - vm_compute. reflexivity.
  - apply (bool_decide_unpack _). vm_compute. exact I.
  - vm_compute. discriminate.
  - exact Ht1.
  - assert (Store.int4 (params_id second)) as Hid.
    { apply (bool_decide_unpack _). vm_compute. exact I. }
    specialize (Hin Hid).
    assert (∃ q1, quotes (store w1) !! params_id second = Some q1
                  ∧ q_status q1 = "quoted"
                  ∧ q_updated_at Demo.jane < q_updated_at q1)
      as (q1 & Hq1 & Hs1 & Hlt1).
    { eexists. split; [vm_compute; reflexivity |]. by vm_compute. }
    rewrite Hq1 in Hin.
    destruct Hin as (q2 & Hq2 & Hs2 & _ & Hlt2 & _ & Hr & _).
    exists q1, q2. by split_and!.
Defined.

Lemma requireAdmin_spec_witness :
  Auth.requireAdmin (H := Demo.libs) Demo.env0 5000 Demo.admin_req
  = Auth.Next Demo.admin_claims.
Proof.
  apply (proj1 (AuthMore.requireAdmin_spec (H := Demo.libs) Demo.env0 5000
                  Demo.admin_req) Demo.admin_claims).
  exists "admin.k". split_and!; try reflexivity.
  split; [discriminate | reflexivity].
Defined.

Lemma requireAdminAllowQuery_spec_witness :
  let req := with_query Demo.req0 "token" (Some (JS.Str "admin.k")) in
  Auth.requireAdminAllowQuery (H := Demo.libs) Demo.env0 5000 req
  = Auth.Next Demo.admin_claims.
Proof.
  intros req.
  apply (AuthMore.requireAdminAllowQuery_spec (H := Demo.libs)).
  right. split; [reflexivity |]. exists "admin.k".
  split; by vm_compute.
Defined.

Lemma hasUrgencyColumn_cached_witness :
  (hasUrgencyColumn Demo2.world_down).1 = inr false
  ∧ HAS_URGENCY (hasUrgencyColumn Demo2.world_down).2 = Some false.
Proof.
  destruct (SubmitMore.hasUrgencyColumn_cached Demo2.world_down)
    as (b & Hr & Hc & _ & _ & Hdown & _).
  rewrite Hr, Hc, Hdown; done.
Defined.

Lemma status_always_legal_witness :
  let req := Demo.with_body Demo.admin_req {[ "status" := JS.Str "closed" ]} in
  status_ok
    (store (patch_admin_quote_status (H := Demo.libs) Demo.env0 req
              Demo.world0).2).
Proof.
  intros req.
  apply (SchemaInvariants.status_always_legal (H := Demo.libs) Demo.env0 req
           Demo.world0 db0_status_ok).
Defined.

Lemma attachments_always_owned_witness :
  fk_ok
    (store (post_quotes_multipart (H := Demo.libs) Demo.env0 Demo2.submit_req
              Demo.world0).2).
Proof.
  apply (SchemaInvariants.attachments_always_owned (H := Demo.libs) Demo.env0
           Demo2.submit_req Demo.world0 db0_fk_ok).
Defined.

Lemma created_before_updated_witness :
  let req := Demo.with_body Demo.admin_req {[ "status" := JS.Str "closed" ]} in
  times_ok
    (store (patch_admin_quote_status (H := Demo.libs) Demo.env0 req
              Demo.world0).2).
Proof.
  intros req.
  apply (SchemaInvariants.created_before_updated (H := Demo.libs) Demo.env0
           req Demo.world0 db0_times_ok).
Defined.



Lemma list_query_normalised_witness :
  get_admin_quotes (H := Demo.libs) Demo.env0
    (with_query Demo.admin_req "q" (Some (JS.Str "JANE"))) Demo.world0
  = get_admin_quotes (H := Demo.libs) Demo.env0
      (with_query Demo.admin_req "q" (Some (JS.Str "jane"))) Demo.world0.
Proof.
  apply (proj2 (ListMore.list_query_normalised (H := Demo.libs) Demo.env0
                  Demo.admin_req Demo.world0 "JANE" "jane")).
  reflexivity.
Defined.

Lemma download_only_registered_witness :
  ∃ f, files Demo.db0 !! 1 = Some f
       ∧ "/data/uploads/f1.png" = "/data/uploads" +:+ "/" +:+ f_path f
       ∧ "/data/uploads/f1.png" ∈ disk Demo.world0.
Proof.
  apply (FileMore.download_only_registered (H := Demo.libs) Demo.env0
           Demo.admin_req Demo.world0 "image/png"
           ("inline; filename=" +:+ dquote +:+ "scan.png" +:+ dquote)
           "/data/uploads/f1.png").
  reflexivity.
Defined.


Lemma details_of_request_witness :
  ∃ fds,
    (Details.get_admin_quote (H := Demo.libs) Demo.env0 Demo.admin_req
       Demo.world0).1
    = Details.Found 1 Demo.jane fds
    ∧ Details.FileDescr 2 (Some "xray.png") (Some "image/png") (Some 4096)
      ∈ fds.
Proof.
  destruct (DetailsMore.details_of_request (H := Demo.libs) Demo.env0
              Demo.admin_req Demo.world0 Demo.admin_claims)
    as (_ & _ & Hok).
  - by vm_compute.
  - reflexivity.
  - destruct Hok as (fds & Hr & Hfds).
    { apply (bool_decide_unpack _). vm_compute. exact I. }
    exists fds. split; [exact Hr |]. apply Hfds.
    exists 2, Demo.lost. by split_and!.
Defined.


Lemma create_admin_idempotent_witness :
  Bootstrap.create_admin Demo.env0 "hash2"
    (Bootstrap.create_admin Demo.env0 "hash1" (Some ∅)).2
  = (0, Some {[ "admin@smile.tn" := "hash1" ]})
  ∧ (Bootstrap.create_admin Demo.env0 "hash1" None).1 = 1.
Proof.
  split.
  - rewrite (proj1 (BootstrapSpec.create_admin_idempotent Demo.env0
                      "hash1" "hash2" (Some ∅))).
    by vm_compute.
  - apply (proj1 (proj2 (proj2 (BootstrapSpec.create_admin_idempotent
                                  Demo.env0 "hash1" "hash2" None)))).
    right. by right.
Defined.

Lemma reading_routes_change_nothing_witness :
  data (get_admin_quotes (H := Demo.libs) Demo.env0 Demo.admin_req
          Demo.world0).2
  = data Demo.world0.
Proof.
  apply (ReadOnly.reading_routes_change_nothing (H := Demo.libs) Demo.env0
           Demo.admin_req Demo.world0).
Defined.

Lemma store_down_answers_500_witness :
  get_admin_quotes (H := Demo.libs) Demo.env0 Demo.admin_req Demo2.world_down
  = (Response 500 (BError "Server error"), Demo2.world_down).
Proof.
  apply (proj1 (Outcomes.store_down_answers_500 (H := Demo.libs) Demo.env0
                  Demo.admin_req Demo2.world_down eq_refl)
           Demo.admin_claims).
  by vm_compute.
Defined.

Lemma invalid_token_rejected_witness :
  let req := Demo.with_header Demo.req0 "Bearer guest.k" in
  Auth.requireAdmin (H := Demo.libs) Demo.env0 5000 req
  = Auth.Respond (Response 401 (BError "Unauthorized"))
  ∧ Auth.requireAdminAllowQuery (H := Demo.libs) Demo.env0 5000 req
    = Auth.Respond (Response 401 (BError "Unauthorized")).
Proof.
  intros req.
  destruct (Outcomes.invalid_token_rejected (H := Demo.libs) Demo.env0 5000
              req "guest.k") as [Hh _].
  - right. exists Demo.guest_claims. split; [by vm_compute | discriminate].
  - apply Hh; [reflexivity |]. split; [discriminate | reflexivity].
Defined.

Lemma pagination_values_witness :
  list_limit (with_query Demo.admin_req "limit" (Some (JS.Str "50"))) = 50
  ∧ list_offset
      (with_query Demo.admin_req "offset"
         (Some (JS.Str "9007199254740995")))
    = 9007199254740996.
Proof.
  split.
  - apply (proj1 (Outcomes.pagination_values (H := Demo.libs) Demo.env0
                    Demo.admin_req Demo.world0 (JS.Str "50") 50)).
    + by vm_compute.
    + lia.
  - apply (proj1 (proj2 (Outcomes.pagination_values (H := Demo.libs)
                           Demo.env0 Demo.admin_req Demo.world0
                           (JS.Str "9007199254740995") 9007199254740996))).
    + by vm_compute.
    + lia.
Defined.


End Samples.
